(** * The car-park collector: polling, retry and supervision

    A shallow embedding of [parking_collector.py] and the properties of
    its four layers: the fetcher ([fetch_parking_data]), the persister
    ([save_parking_data]), the poll cycle ([poll_all_facilities]) and the
    supervisor loop ([main]).

    Python code runs in a monad of world-passing computations that may
    raise.  The world holds what the program leaves behind: the
    chronological trace of its observable actions (log lines, HTTP
    requests, sleeps, connections) and the rows of the [parking_data]
    table.  What the program cannot decide itself (what the remote API
    answers, whether the operator presses Ctrl-C, whether the disk fails,
    what time it is) is read from an [environment] of oracles indexed by
    the instant, the number of actions performed so far.

    The last part covers the time axis of the dashboard
    ([visualize_parking.py]): the keys the readings are averaged under
    and the labels they are shown with. *)

From Stdlib Require Import ZArith QArith List String Bool Arith Lia
  DecimalString.
From Equations Require Import Equations.
Import ListNotations.

Set Warnings "-register-all".
Local Open Scope string_scope.
Local Open Scope list_scope.
Local Open Scope nat_scope.

(** ** Configuration constants (lines 23-36) *)

Definition POLL_INTERVAL_SECONDS : Q := 600.
Definition MAX_RETRIES : nat := 5.
Definition RATE_LIMIT_DELAY : Q := 1 # 2.
Definition MAX_CONSECUTIVE_FAILURES : nat := 3.
Definition RETRYABLE_STATUS_CODES : list Z := [500; 503]%Z.
Definition FATAL_STATUS_CODES : list Z := [401; 403; 404]%Z.

(** The list the repository ships with. *)
Definition FACILITIES_shipped : list Z := [29; 30; 31; 32]%Z.

(** [status_code in codes] on a list of integers. *)
Definition status_in (status_code : Z) (codes : list Z) : bool :=
  existsb (Z.eqb status_code) codes.

(** ** Python values and exceptions *)

(** What [json.loads] can return.  A dict is kept as an association list
    in insertion order; lookups take the first binding of a key.  A
    [PStr] holds text that has an encoding: a string with a lone surrogate,
    which [sqlite3] refuses with [UnicodeEncodeError], is not a [pyval]. *)
Inductive pyval : Type :=
| PNone
| PBool (b : bool)
| PInt (z : Z)
| PFloat (q : Q)
| PStr (s : string)
| PList (items : list pyval)
| PDict (items : list (string * pyval)).

(** The exceptions the collector can meet.  [KeyboardInterrupt] and
    [SystemExit] derive from [BaseException] only; all others derive from
    [Exception].  [Timeout] is a [RequestException] in Python; here
    [RequestException] stands for the ones that are not timeouts.
    [UnsupportedType] is the error of [sqlite3] for a parameter it has no
    conversion for: [sqlite3.InterfaceError] up to Python 3.10,
    [sqlite3.ProgrammingError] from Python 3.11 on.  Both derive from
    [sqlite3.Error], neither is an [IntegrityError], and no clause of the
    collector tells them apart. *)
Inductive exn : Type :=
| KeyboardInterrupt
| SystemExit (code : Z)
| Timeout
| RequestException
| JSONDecodeError
| TypeError
| AttributeError
| KeyError
| OverflowError
| IntegrityError
| OperationalError
| UnsupportedType.

Definition is_Exception (e : exn) : bool :=
  match e with
  | KeyboardInterrupt | SystemExit _ => false
  | _ => true
  end.

Inductive result (A : Type) : Type :=
| Ok (a : A)
| Raise (e : exn).
Arguments Ok {A} a.
Arguments Raise {A} e.

(** Truth value of an object, as [if data:] tests it. *)
Definition truthy (v : pyval) : bool :=
  match v with
  | PNone => false
  | PBool b => b
  | PInt z => negb (z =? 0)%Z
  | PFloat q => negb (Qeq_bool q 0)
  | PStr s => negb (s =? "")%string
  | PList items => match items with [] => false | _ => true end
  | PDict items => match items with [] => false | _ => true end
  end.

Definition truthy_opt (data : option pyval) : bool :=
  match data with
  | None => false
  | Some v => truthy v
  end.

Fixpoint assoc (key : string) (items : list (string * pyval)) : option pyval :=
  match items with
  | [] => None
  | (k, v) :: rest => if (k =? key)%string then Some v else assoc key rest
  end.

Definition is_str (key : string) (v : pyval) : bool :=
  match v with
  | PStr s => (s =? key)%string
  | _ => false
  end.

(** [key in data]: key membership for a dict, element membership for a
    list, substring test for a string, [TypeError] for the rest. *)
Definition py_in (key : string) (data : pyval) : result bool :=
  match data with
  | PDict items => Ok (match assoc key items with Some _ => true | None => false end)
  | PList items => Ok (existsb (is_str key) items)
  | PStr s => Ok (match index 0 key s with Some _ => true | None => false end)
  | _ => Raise TypeError
  end.

(** [data[key]] with a string key. *)
Definition py_getitem (data : pyval) (key : string) : result pyval :=
  match data with
  | PDict items => match assoc key items with
                   | Some v => Ok v
                   | None => Raise KeyError
                   end
  | _ => Raise TypeError
  end.

(** [data.get(key, default)]: only dicts have the method. *)
Definition py_get (data : pyval) (key : string) (default : pyval) : result pyval :=
  match data with
  | PDict items => match assoc key items with
                   | Some v => Ok v
                   | None => Ok default
                   end
  | _ => Raise AttributeError
  end.

(** ** The table [parking_data] (lines 44-56) *)

Inductive sql_value : Type :=
| SqlNull
| SqlInteger (z : Z)
| SqlReal (q : Q)
| SqlText (s : string).

Definition sql_eqb (a b : sql_value) : bool :=
  match a, b with
  | SqlNull, SqlNull => true
  | SqlInteger x, SqlInteger y => (x =? y)%Z
  | SqlReal x, SqlReal y => Qeq_bool x y
  | SqlText x, SqlText y => (x =? y)%string
  | _, _ => false
  end.

Definition is_null (a : sql_value) : bool :=
  match a with
  | SqlNull => true
  | _ => false
  end.

Inductive column_type : Type := INTEGER | TEXT.

(** One row, without the autoincremented [id]. *)
Record row : Type := mkRow {
  facility_id : sql_value;
  facility_name : sql_value;
  message_date : sql_value;
  collected_at : sql_value;
  total_spots : sql_value;
  total_occupancy : sql_value;
  raw_response : sql_value
}.

(** How the [sqlite3] module binds a Python object to a [?].  A list or
    a dict has no conversion; the class of the error depends on the
    interpreter, see [UnsupportedType]. *)
Definition bind_parameter (v : pyval) : result sql_value :=
  match v with
  | PNone => Ok SqlNull
  | PBool b => Ok (SqlInteger (if b then 1 else 0))
  | PInt z => if ((- 2 ^ 63 <=? z) && (z <? 2 ^ 63))%Z
              then Ok (SqlInteger z) else Raise OverflowError
  | PFloat q => Ok (SqlReal q)
  | PStr s => Ok (SqlText s)
  | PList _ | PDict _ => Raise UnsupportedType
  end.

(** ** Observable actions *)

Inductive level : Type := INFO | WARNING | ERROR.

(** One constructor per log line of the source, with the values it
    interpolates. *)
Inductive message : Type :=
| MsgDatabaseInitialized
| MsgApiKeyMissing
| MsgApiError (facility : Z) (detail : pyval)
| MsgFetched (facility : Z)
| MsgFatalStatus (status_code facility : Z)
| MsgRetryableStatus (status_code facility : Z) (retry : nat) (wait_time : Z)
| MsgMaxRetries (facility : Z)
| MsgUnexpectedStatus (status_code facility : Z)
| MsgTimeoutRetry (facility : Z) (retry : nat) (wait_time : Z)
| MsgMaxRetriesTimeouts (facility : Z)
| MsgRequestException (facility : Z)
| MsgJsonError (facility : Z)
| MsgSaved (fid fname spots occupancy : pyval)
| MsgDuplicate (fid mdate : pyval)
| MsgCycleStart (facilities : nat)
| MsgCycleComplete (success_count facilities : nat)
| MsgApiKeyMissingExit
| MsgStarting
| MsgMonitoring (facilities : list Z)
| MsgPollInterval
| MsgIntervalFailed (consecutive_failures : nat)
| MsgCriticalIntervals
| MsgWaiting
| MsgInterrupt
| MsgUnexpectedError (e : exn)
| MsgCriticalErrors.

Inductive event : Type :=
| Log (lvl : level) (msg : message)
| Stderr (msg : message)
| Get (facility : Z)
| Sleep (seconds : Q)
| Connect
| Close.

Record world : Type := mkWorld {
  trace : list event;
  db : list row
}.

Definition empty_world : world := mkWorld [] [].

(** The instant: how many actions have been performed. *)
Definition tick (w : world) : nat := List.length (trace w).

Definition emit (e : event) (w : world) : world :=
  mkWorld (trace w ++ [e]) (db w).

(** ** The outside world *)

Inductive body : Type :=
| Malformed
| Json (v : pyval).

Inductive http_outcome : Type :=
| Response (status_code : Z) (content : body)
| TimedOut
| ConnectionFailed.

Record environment : Type := mkEnv {
  API_KEY : option string;
  FACILITIES : list Z;
  (** what [requests.get] meets at an instant, for a facility *)
  http : nat -> Z -> http_outcome;
  (** whether the operator interrupts the blocking call made at an instant *)
  interrupt : nat -> bool;
  (** whether the storage fails under the statement executed at an instant *)
  storage_fault : nat -> bool;
  (** [datetime.now().isoformat()] *)
  clock : nat -> string;
  (** [json.dumps] *)
  json_dumps : pyval -> string;
  (** the conversion SQLite applies to a value stored in a column *)
  affinity : column_type -> sql_value -> sql_value
}.

(** ** Computations *)

Definition M (A : Type) : Type := world -> result A * world.

Definition ret {A} (a : A) : M A := fun w => (Ok a, w).

Definition raise {A} (e : exn) : M A := fun w => (Raise e, w).

Definition bind {A B} (m : M A) (k : A -> M B) : M B :=
  fun w => match m w with
           | (Ok a, w1) => k a w1
           | (Raise e, w1) => (Raise e, w1)
           end.

Definition lift {A} (r : result A) : M A := fun w => (r, w).

Declare Scope py_scope.
Delimit Scope py_scope with py.
Notation "x <- m ;; k" := (bind m (fun x => k))
  (at level 61, m at next level, right associativity) : py_scope.
Notation "m ;; k" := (bind m (fun _ => k))
  (at level 61, right associativity) : py_scope.
Local Open Scope py_scope.

(** [try: body except ...: handler]: [handler e] is [None] when no
    [except] clause matches [e]. *)
Definition try_except {A} (body : M A) (handler : exn -> option (M A)) : M A :=
  fun w => match body w with
           | (Ok a, w1) => (Ok a, w1)
           | (Raise e, w1) => match handler e with
                              | Some h => h w1
                              | None => (Raise e, w1)
                              end
           end.

(** [try: body finally: cleanup] *)
Definition try_finally {A} (body : M A) (cleanup : M unit) : M A :=
  fun w => match body w with
           | (r, w1) => match cleanup w1 with
                        | (Ok _, w2) => (r, w2)
                        | (Raise e, w2) => (Raise e, w2)
                        end
           end.

Definition log (lvl : level) (msg : message) : M unit :=
  fun w => (Ok tt, emit (Log lvl msg) w).

Definition print_stderr (msg : message) : M unit :=
  fun w => (Ok tt, emit (Stderr msg) w).

Definition sys_exit {A} (code : Z) : M A := raise (SystemExit code).

Section Collector.

Variable E : environment.

(** [if not API_KEY]: unset or empty. *)
Definition api_key_missing : bool :=
  match API_KEY E with
  | None => true
  | Some k => (k =? "")%string
  end.

(** [time.sleep(seconds)], a blocking call the operator can interrupt. *)
Definition sleep (seconds : Q) : M unit :=
  fun w => if interrupt E (tick w)
           then (Raise KeyboardInterrupt, emit (Sleep seconds) w)
           else (Ok tt, emit (Sleep seconds) w).

(** [requests.get(url, headers=headers, timeout=30)] *)
Definition requests_get (facility : Z) : M (Z * body) :=
  fun w => if interrupt E (tick w)
           then (Raise KeyboardInterrupt, emit (Get facility) w)
           else match http E (tick w) facility with
                | Response status_code content =>
                    (Ok (status_code, content), emit (Get facility) w)
                | TimedOut => (Raise Timeout, emit (Get facility) w)
                | ConnectionFailed => (Raise RequestException, emit (Get facility) w)
                end.

(** [response.json()].  A body is either refused with [JSONDecodeError]
    or parsed.  The other ways the parser of the standard library can fail
    on a body (a [ValueError] on an integer of more than 4300 digits, a
    [RecursionError] on deep nesting) are not modelled: a property that
    bounds what the fetcher can raise is stated relative to the place
    where it raises, never as a closed list of classes. *)
Definition response_json (content : body) : M pyval :=
  match content with
  | Malformed => raise JSONDecodeError
  | Json v => ret v
  end.

(** ** The fetcher (lines 74-142) *)

Equations? fetch_parking_data (facility : Z) (retry_count : nat)
  : M (option pyval) by wf (MAX_RETRIES - retry_count) lt :=
fetch_parking_data facility retry_count :=
  if api_key_missing then
    log ERROR MsgApiKeyMissing ;;
    ret None
  else
    try_except
      (response <- requests_get facility ;;
       let status_code := fst response in
       if (status_code =? 200)%Z then
         data <- response_json (snd response) ;;
         has_error <- lift (py_in "ErrorDetails" data) ;;
         if has_error then
           details <- lift (py_getitem data "ErrorDetails") ;;
           detail <- lift (py_get details "Message" (PStr "Unknown error")) ;;
           log ERROR (MsgApiError facility detail) ;;
           ret None
         else
           log INFO (MsgFetched facility) ;;
           ret (Some data)
       else if status_in status_code FATAL_STATUS_CODES then
         log ERROR (MsgFatalStatus status_code facility) ;;
         ret None
       else if status_in status_code RETRYABLE_STATUS_CODES
               || (status_code =? 403)%Z then
         match lt_dec retry_count MAX_RETRIES with
         | left _ =>
             let wait_time := (2 ^ Z.of_nat retry_count)%Z in
             log WARNING (MsgRetryableStatus status_code facility
                            (retry_count + 1) wait_time) ;;
             sleep (inject_Z wait_time) ;;
             fetch_parking_data facility (retry_count + 1)
         | right _ =>
             log ERROR (MsgMaxRetries facility) ;;
             ret None
         end
       else
         log ERROR (MsgUnexpectedStatus status_code facility) ;;
         ret None)
      (fun e =>
         match e with
         | Timeout =>
             Some
               match lt_dec retry_count MAX_RETRIES with
               | left _ =>
                   let wait_time := (2 ^ Z.of_nat retry_count)%Z in
                   log WARNING (MsgTimeoutRetry facility (retry_count + 1) wait_time) ;;
                   sleep (inject_Z wait_time) ;;
                   fetch_parking_data facility (retry_count + 1)
               | right _ =>
                   log ERROR (MsgMaxRetriesTimeouts facility) ;;
                   ret None
               end
         | RequestException =>
             Some (log ERROR (MsgRequestException facility) ;; ret None)
         | JSONDecodeError =>
             Some (log ERROR (MsgJsonError facility) ;; ret None)
         | _ => None
         end).
Proof.
  all: clear fetch_parking_data;
    match goal with
    | H : ?n < MAX_RETRIES |- _ =>
        unfold MAX_RETRIES in H; do 6 (destruct n as [|n]; simpl; try lia)
    end.
Qed.

(** What a retryable outcome leads to (lines 113-120 and 127-134). *)
Definition backoff (facility : Z) (retry_count : nat)
  (warning exhausted : message) : M (option pyval) :=
  if retry_count <? MAX_RETRIES then
    log WARNING warning ;;
    sleep (inject_Z (2 ^ Z.of_nat retry_count)) ;;
    fetch_parking_data facility (retry_count + 1)
  else
    log ERROR exhausted ;;
    ret None.

(** ** The persister (lines 145-180) *)

(** [sqlite3.connect(DB_PATH)] and [conn.close()] *)
Definition connect : M unit := fun w => (Ok tt, emit Connect w).
Definition close : M unit := fun w => (Ok tt, emit Close w).

(** [datetime.now().isoformat()] *)
Definition now_isoformat : M pyval :=
  fun w => (Ok (PStr (clock E (tick w))), w).

(** The columns declared [NOT NULL]. *)
Definition not_null_violated (r : row) : bool :=
  is_null (facility_id r) || is_null (facility_name r)
  || is_null (message_date r) || is_null (collected_at r)
  || is_null (raw_response r).

(** The row as the table keeps it, each value converted for its column. *)
Definition stored (r : row) : row :=
  mkRow (affinity E INTEGER (facility_id r))
        (affinity E TEXT (facility_name r))
        (affinity E TEXT (message_date r))
        (affinity E TEXT (collected_at r))
        (affinity E INTEGER (total_spots r))
        (affinity E INTEGER (total_occupancy r))
        (affinity E TEXT (raw_response r)).

(** [UNIQUE(facility_id, message_date)] *)
Definition same_key (a b : row) : bool :=
  sql_eqb (facility_id a) (facility_id b)
  && sql_eqb (message_date a) (message_date b).

(** [cursor.execute('INSERT INTO parking_data ... VALUES (?, ?, ?, ?, ?, ?, ?)',
    (...))] followed by [conn.commit()]: the parameters are bound in
    order, then the statement runs against the table and its constraints.
    Both constraint failures are [sqlite3.IntegrityError]. *)
Definition execute_insert
  (p_facility_id p_facility_name p_message_date p_collected_at
   p_total_spots p_total_occupancy p_raw_response : pyval) : M unit :=
  c1 <- lift (bind_parameter p_facility_id) ;;
  c2 <- lift (bind_parameter p_facility_name) ;;
  c3 <- lift (bind_parameter p_message_date) ;;
  c4 <- lift (bind_parameter p_collected_at) ;;
  c5 <- lift (bind_parameter p_total_spots) ;;
  c6 <- lift (bind_parameter p_total_occupancy) ;;
  c7 <- lift (bind_parameter p_raw_response) ;;
  fun w =>
    let r := mkRow c1 c2 c3 c4 c5 c6 c7 in
    if storage_fault E (tick w) then (Raise OperationalError, w)
    else if not_null_violated r then (Raise IntegrityError, w)
    else if existsb (same_key (stored r)) (db w) then (Raise IntegrityError, w)
    else (Ok tt, mkWorld (trace w) (db w ++ [stored r])).

Definition save_parking_data (data : pyval) : M unit :=
  connect ;;
  v_facility_id <- lift (py_get data "facility_id" PNone) ;;
  v_facility_name <- lift (py_get data "facility_name" (PStr "")) ;;
  v_message_date <- lift (py_get data "MessageDate" (PStr "")) ;;
  v_collected_at <- now_isoformat ;;
  v_total_spots <- lift (py_get data "spots" PNone) ;;
  occupancy <- lift (py_get data "occupancy" (PDict [])) ;;
  v_total_occupancy <- lift (py_get occupancy "total" PNone) ;;
  let v_raw_response := PStr (json_dumps E data) in
  try_finally
    (try_except
       (execute_insert v_facility_id v_facility_name v_message_date
          v_collected_at v_total_spots v_total_occupancy v_raw_response ;;
        log INFO (MsgSaved v_facility_id v_facility_name
                    v_total_spots v_total_occupancy))
       (fun e =>
          match e with
          | IntegrityError =>
              Some (log WARNING (MsgDuplicate v_facility_id v_message_date))
          | _ => None
          end))
    close.

(** ** The poll cycle (lines 183-205) *)

(** The body of [for facility_id in FACILITIES]. *)
Definition poll_facility (facility : Z) (success_count : nat) : M nat :=
  data <- fetch_parking_data facility 0 ;;
  success_count <-
    match data with
    | Some payload =>
        if truthy payload then
          save_parking_data payload ;;
          ret (success_count + 1)
        else ret success_count
    | None => ret success_count
    end ;;
  (if negb (facility =? last (FACILITIES E) 0)%Z
   then sleep RATE_LIMIT_DELAY
   else ret tt) ;;
  ret success_count.

Fixpoint poll_facilities (todo : list Z) (success_count : nat) : M nat :=
  match todo with
  | [] => ret success_count
  | facility :: rest =>
      success_count <- poll_facility facility success_count ;;
      poll_facilities rest success_count
  end.

Definition poll_all_facilities : M bool :=
  log INFO (MsgCycleStart (List.length (FACILITIES E))) ;;
  success_count <- poll_facilities (FACILITIES E) 0 ;;
  log INFO (MsgCycleComplete success_count (List.length (FACILITIES E))) ;;
  ret (0 <? success_count).

(** ** The supervisor (lines 208-256) *)

(** [init_database] (lines 39-71) opens a connection, creates the table
    and its indexes if they are missing, and closes the connection.  The
    statements are taken to succeed, and the operator is taken not to
    interrupt the start-up: the process is followed from its first cycle
    on. *)
Definition init_database : M unit :=
  connect ;;
  close ;;
  log INFO MsgDatabaseInitialized.

(** One turn of [while True].  The value returned is the counter the
    next turn starts with.  In the [try] block nothing that follows an
    assignment to the counter raises an [Exception] (the sleep can only be
    interrupted, [sys.exit] raises [SystemExit]), so the last handler
    reads the counter the turn started with. *)
Definition main_iteration (consecutive_failures : nat) : M nat :=
  try_except
    (success <- poll_all_facilities ;;
     consecutive_failures <-
       (if success : bool then ret 0
        else
          let consecutive_failures := consecutive_failures + 1 in
          log ERROR (MsgIntervalFailed consecutive_failures) ;;
          if MAX_CONSECUTIVE_FAILURES <=? consecutive_failures then
            log ERROR MsgCriticalIntervals ;;
            print_stderr MsgCriticalIntervals ;;
            sys_exit 1
          else ret consecutive_failures) ;;
     log INFO MsgWaiting ;;
     sleep POLL_INTERVAL_SECONDS ;;
     ret consecutive_failures)
    (fun e =>
       match e with
       | KeyboardInterrupt =>
           Some (log INFO MsgInterrupt ;; sys_exit 0)
       | SystemExit _ => None
       | _ =>
           Some
             (log ERROR (MsgUnexpectedError e) ;;
              let consecutive_failures := consecutive_failures + 1 in
              (if MAX_CONSECUTIVE_FAILURES <=? consecutive_failures then
                 log ERROR MsgCriticalErrors ;;
                 print_stderr MsgCriticalErrors ;;
                 sys_exit 1
               else ret tt) ;;
              sleep POLL_INTERVAL_SECONDS ;;
              ret consecutive_failures)
       end).

(** How the process stands: it left through [sys.exit], it died of an
    exception nothing caught, or it is still in its loop. *)
Inductive termination : Type :=
| Exited (status : Z)
| Traceback (e : exn)
| Running (consecutive_failures : nat).

(** [while True], observed for at most [turns] turns. *)
Fixpoint main_loop (turns : nat) (consecutive_failures : nat) (w : world)
  : termination * world :=
  match turns with
  | O => (Running consecutive_failures, w)
  | S turns' =>
      match main_iteration consecutive_failures w with
      | (Ok n, w1) => main_loop turns' n w1
      | (Raise (SystemExit code), w1) => (Exited code, w1)
      | (Raise e, w1) => (Traceback e, w1)
      end
  end.

Definition main (turns : nat) (w : world) : termination * world :=
  if api_key_missing then
    (Exited 1, emit (Log ERROR MsgApiKeyMissingExit) w)
  else
    match (log INFO MsgStarting ;;
           log INFO (MsgMonitoring (FACILITIES E)) ;;
           log INFO MsgPollInterval ;;
           init_database) w with
    | (Ok _, w1) => main_loop turns 0 w1
    | (Raise (SystemExit code), w1) => (Exited code, w1)
    | (Raise e, w1) => (Traceback e, w1)
    end.

End Collector.

(** ** The persister, seen from the payload *)

Definition and_then {A B} (r : result A) (k : A -> result B) : result B :=
  match r with
  | Ok a => k a
  | Raise e => Raise e
  end.

(** The five values lines 155-163 take from the payload. *)
Definition extract_fields (data : pyval)
  : result (pyval * pyval * pyval * pyval * pyval) :=
  and_then (py_get data "facility_id" PNone) (fun v_facility_id =>
  and_then (py_get data "facility_name" (PStr "")) (fun v_facility_name =>
  and_then (py_get data "MessageDate" (PStr "")) (fun v_message_date =>
  and_then (py_get data "spots" PNone) (fun v_total_spots =>
  and_then (py_get data "occupancy" (PDict [])) (fun occupancy =>
  and_then (py_get occupancy "total" PNone) (fun v_total_occupancy =>
  Ok (v_facility_id, v_facility_name, v_message_date,
      v_total_spots, v_total_occupancy))))))).

(** The row the [INSERT] is given, its seven parameters bound in order. *)
Definition bind_row (fields : pyval * pyval * pyval * pyval * pyval)
  (timestamp raw : string) : result row :=
  let '(v_facility_id, v_facility_name, v_message_date,
        v_total_spots, v_total_occupancy) := fields in
  and_then (bind_parameter v_facility_id) (fun c1 =>
  and_then (bind_parameter v_facility_name) (fun c2 =>
  and_then (bind_parameter v_message_date) (fun c3 =>
  and_then (bind_parameter (PStr timestamp)) (fun c4 =>
  and_then (bind_parameter v_total_spots) (fun c5 =>
  and_then (bind_parameter v_total_occupancy) (fun c6 =>
  and_then (bind_parameter (PStr raw)) (fun c7 =>
  Ok (mkRow c1 c2 c3 c4 c5 c6 c7)))))))).

Definition row_of (E : environment) (data : pyval) (timestamp : string)
  : result row :=
  and_then (extract_fields data)
    (fun fields => bind_row fields timestamp (json_dumps E data)).

(** A payload is a reading when the persister can map it onto the columns
    of the table; it is complete when no [NOT NULL] column is left empty. *)
Definition is_reading (E : environment) (data : pyval) : Prop :=
  forall timestamp, exists r, row_of E data timestamp = Ok r.

Definition complete_reading (E : environment) (data : pyval) : Prop :=
  forall timestamp,
    exists r, row_of E data timestamp = Ok r /\ not_null_violated r = false.

(** Two readings carry the same pair (facility id, message timestamp). *)
Definition same_pair (E : environment) (d1 d2 : pyval) : Prop :=
  forall t1 t2 r1 r2,
    row_of E d1 t1 = Ok r1 -> row_of E d2 t2 = Ok r2 ->
    same_key (stored E r1) (stored E r2) = true.

(** The invariant of the table, and the number of rows with the pair of
    a given row. *)
Fixpoint unique_keys (rows : list row) : Prop :=
  match rows with
  | [] => True
  | r :: rest => existsb (same_key r) rest = false /\ unique_keys rest
  end.

Definition key_count (r : row) (rows : list row) : nat :=
  List.length (filter (same_key r) rows).

(** What the fetches of a cycle started in [w] returned, facility by
    facility, as far as the cycle went. *)
Fixpoint fetched (E : environment) (todo : list Z) (success_count : nat)
  (w : world) : list (option pyval) :=
  match todo with
  | [] => []
  | facility :: rest =>
      match fetch_parking_data E facility 0 w with
      | (Ok data, _) =>
          data :: match poll_facility E facility success_count w with
                  | (Ok success_count', w') => fetched E rest success_count' w'
                  | (Raise _, _) => []
                  end
      | (Raise _, _) => []
      end
  end.

(** A cycle fails when the orchestrator returns false or lets an
    [Exception] through. *)
Definition cycle_fails (E : environment) (w : world) : Prop :=
  fst (poll_all_facilities E w) = Ok false
  \/ exists e, fst (poll_all_facilities E w) = Raise e /\ is_Exception e = true.

(** ** Reading a trace *)

(** The durations slept, the facilities requested and the number of
    connections opened, in the order of the trace. *)
Definition sleeps (tr : list event) : list Q :=
  flat_map (fun e => match e with Sleep d => [d] | _ => [] end) tr.

Definition requests (tr : list event) : list Z :=
  flat_map (fun e => match e with Get f => [f] | _ => [] end) tr.

Definition connections (tr : list event) : nat :=
  List.length (flat_map (fun e => match e with Connect => [tt] | _ => [] end) tr).

(** The backoff durations and the pacing delay are told apart by their
    value: the first are whole numbers of seconds. *)
Definition is_pacing (seconds : Q) : bool :=
  (Qnum seconds =? Qnum RATE_LIMIT_DELAY)%Z
  && (Qden seconds =? Qden RATE_LIMIT_DELAY)%positive.

Definition pacing_sleeps (tr : list event) : nat :=
  List.length (filter is_pacing (sleeps tr)).

(** What the processing of one facility may leave before its pacing
    sleep: requests for that facility only, and no sleep of the pacing
    duration. *)
Definition segment_of (facility : Z) (seg : list event) : Prop :=
  Forall (eq facility) (requests seg) /\ pacing_sleeps seg = 0.

(** Segments in order, one pacing sleep between two of them. *)
Fixpoint paced (segments : list (list event)) : list event :=
  match segments with
  | [] => []
  | seg :: rest =>
      match rest with
      | [] => seg
      | _ => seg ++ Sleep RATE_LIMIT_DELAY :: paced rest
      end
  end.

(** Segments in order, with the pacing sleep the source inserts: after
    every facility whose id differs from the last id of the list. *)
Fixpoint paced_by (last_facility : Z) (todo : list Z)
  (segments : list (list event)) : list event :=
  match todo, segments with
  | facility :: todo', seg :: rest =>
      seg ++ (if (facility =? last_facility)%Z then []
              else [Sleep RATE_LIMIT_DELAY])
          ++ paced_by last_facility todo' rest
  | _, _ => []
  end.

(** What a computation started in [w] adds to the trace. *)
Definition events_of {A} (m : M A) (w : world) : list event :=
  skipn (tick w) (trace (snd (m w))).

(** [w'] is [w] after the events [delta], with the same table. *)
Definition after (w : world) (delta : list event) : world :=
  mkWorld (trace w ++ delta) (db w).

(** The events a fetch for [facility] can leave: log lines, requests for
    that facility, and sleeps of a power of two seconds. *)
Definition fetch_event (facility : Z) (e : event) : Prop :=
  match e with
  | Log _ _ => True
  | Get f => f = facility
  | Sleep seconds => exists k : nat, seconds = inject_Z (2 ^ Z.of_nat k)
  | _ => False
  end.

(** ** Sample environments *)

(** A quiet deployment: the key is set, nobody interrupts, the storage
    works, and the API answers every request with [answer]. *)
Definition deployment (facilities : list Z) (answer : Z -> http_outcome)
  : environment :=
  mkEnv (Some "key") facilities (fun _ => answer)
        (fun _ => false) (fun _ => false)
        (fun _ => "2026-01-01T00:00:00") (fun _ => "{}") (fun _ v => v).

Definition reading_payload (facility : Z) : pyval :=
  PDict [("facility_id", PInt facility);
         ("facility_name", PStr "Park&Ride");
         ("MessageDate", PStr "2026-01-01T00:00:00");
         ("spots", PInt 100);
         ("occupancy", PDict [("total", PInt 40)])].

Definition env_healthy : environment :=
  deployment FACILITIES_shipped
    (fun f => Response 200 (Json (reading_payload f))).

Definition env_unavailable : environment :=
  deployment FACILITIES_shipped (fun _ => Response 503 Malformed).

Definition env_forbidden : environment :=
  deployment FACILITIES_shipped (fun _ => Response 403 Malformed).

(** An application-level error as the API documents it, and one whose
    [ErrorDetails] is a bare string. *)
Definition env_api_error : environment :=
  deployment FACILITIES_shipped
    (fun _ => Response 200
                (Json (PDict [("ErrorDetails",
                               PDict [("Message", PStr "Rate limit exceeded")])]))).

Definition env_api_error_text : environment :=
  deployment FACILITIES_shipped
    (fun _ => Response 200
                (Json (PDict [("ErrorDetails", PStr "Rate limit exceeded")]))).

(** A list that names facility 29 twice. *)
Definition env_twice : environment :=
  deployment [29; 29]%Z (fun f => Response 200 (Json (reading_payload f))).

(** A second delivery of facility 29's message, with another count. *)
Definition reading_payload_again : pyval :=
  PDict [("facility_id", PInt 29);
         ("facility_name", PStr "Park&Ride");
         ("MessageDate", PStr "2026-01-01T00:00:00");
         ("spots", PInt 100);
         ("occupancy", PDict [("total", PInt 41)])].

(** A payload that lacks [facility_id]. *)
Definition payload_without_facility_id : pyval :=
  PDict [("facility_name", PStr "Park&Ride");
         ("MessageDate", PStr "2026-01-01T00:00:00");
         ("spots", PInt 100);
         ("occupancy", PDict [("total", PInt 40)])].

(** A deployment whose storage fails under every statement. *)
Definition env_disk_failure : environment :=
  mkEnv (Some "key") FACILITIES_shipped
        (fun _ f => Response 200 (Json (reading_payload f)))
        (fun _ => false) (fun _ => true)
        (fun _ => "2026-01-01T00:00:00") (fun _ => "{}") (fun _ v => v).

(** A payload whose [occupancy] is [null]: the persister fails on it
    with [AttributeError] before it reaches the table. *)
Definition payload_null_occupancy (facility : Z) : pyval :=
  PDict [("facility_id", PInt facility);
         ("MessageDate", PStr "2026-01-01T00:00:00");
         ("occupancy", PNone)].

(** The API sends such payloads, and the operator presses Ctrl-C at
    instant 11: during the sleep that follows the first, failed, cycle. *)
Definition env_crash_then_interrupt : environment :=
  mkEnv (Some "key") FACILITIES_shipped
        (fun _ f => Response 200 (Json (payload_null_occupancy f)))
        (Nat.eqb 11) (fun _ => false)
        (fun _ => "2026-01-01T00:00:00") (fun _ => "{}") (fun _ v => v).

(** The API is down, and the operator presses Ctrl-C at instant 81:
    during the sleep that follows the first, failed, cycle. *)
Definition env_down_then_interrupt : environment :=
  mkEnv (Some "key") FACILITIES_shipped
        (fun _ _ => Response 503 Malformed)
        (Nat.eqb 81) (fun _ => false)
        (fun _ => "2026-01-01T00:00:00") (fun _ => "{}") (fun _ v => v).

(** ** Outcomes of a request, by what the fetcher does with them *)

(** Outcomes the fetcher retries: a timeout, or a status of
    [RETRYABLE_STATUS_CODES]. *)
Definition retryable (o : http_outcome) : bool :=
  match o with
  | Response status_code _ => status_in status_code RETRYABLE_STATUS_CODES
  | TimedOut => true
  | ConnectionFailed => false
  end.

(** Outcomes after which the fetcher gives up at once: a transport error,
    a body that is not JSON under status 200, or any status other than 200
    that is not retryable. *)
Definition gives_up (o : http_outcome) : bool :=
  match o with
  | Response status_code content =>
      if (status_code =? 200)%Z
      then match content with Malformed => true | Json _ => false end
      else negb (status_in status_code RETRYABLE_STATUS_CODES)
  | TimedOut => false
  | ConnectionFailed => true
  end.

(** Outcomes that are not a parsed body under status 200. *)
Definition no_payload (o : http_outcome) : bool :=
  match o with
  | Response status_code (Json _) => negb (status_code =? 200)%Z
  | _ => true
  end.

(** Bodies the fetcher handles without raising: under status 200, a JSON
    object whose [ErrorDetails], when there is one, is an object too. *)
Definition well_shaped (o : http_outcome) : bool :=
  match o with
  | Response status_code (Json data) =>
      if (status_code =? 200)%Z then
        match data with
        | PDict items =>
            match assoc "ErrorDetails" items with
            | Some (PDict _) | None => true
            | Some _ => false
            end
        | _ => false
        end
      else true
  | _ => true
  end.

(** [2 ** retry_count] seconds. *)
Definition backoff_seconds (retry_count : nat) : Q :=
  inject_Z (2 ^ Z.of_nat retry_count).

(** Total of a list of durations. *)
Definition total_seconds (durations : list Q) : Q :=
  fold_right Qplus 0%Q durations.

(** Two timeouts, then the reading. *)
Definition env_flaky : environment :=
  mkEnv (Some "key") FACILITIES_shipped
        (fun t f => if t <? 6 then TimedOut
                    else Response 200 (Json (reading_payload f)))
        (fun _ => false) (fun _ => false)
        (fun _ => "2026-01-01T00:00:00") (fun _ => "{}") (fun _ v => v).

Definition env_timeouts : environment :=
  deployment FACILITIES_shipped (fun _ => TimedOut).

Definition env_not_found : environment :=
  deployment FACILITIES_shipped (fun _ => Response 404 Malformed).

(** No credential in the environment. *)
Definition env_no_key : environment :=
  mkEnv None FACILITIES_shipped
        (fun _ f => Response 200 (Json (reading_payload f)))
        (fun _ => false) (fun _ => false)
        (fun _ => "2026-01-01T00:00:00") (fun _ => "{}") (fun _ v => v).

(** ** Reading a trace, continued *)

(** The connections closed, in a trace. *)
Definition closings (tr : list event) : nat :=
  List.length (flat_map (fun e => match e with Close => [tt] | _ => [] end) tr).

(** A payload that carries a facility id and a count, and nothing else. *)
Definition payload_undated (facility total : Z) : pyval :=
  PDict [("facility_id", PInt facility);
         ("occupancy", PDict [("total", PInt total)])].

(** The operator interrupts every blocking call. *)
Definition env_interrupting : environment :=
  mkEnv (Some "key") FACILITIES_shipped
        (fun _ f => Response 200 (Json (reading_payload f)))
        (fun _ => true) (fun _ => false)
        (fun _ => "2026-01-01T00:00:00") (fun _ => "{}") (fun _ v => v).

(** An answer the whole pipeline accepts: a body under status 200 that is
    not an application-level error, is not empty, and maps onto the
    columns of the table. *)
Definition healthy_answer (E : environment) (o : http_outcome) : Prop :=
  exists data,
    o = Response 200 (Json data)
    /\ py_in "ErrorDetails" data = Ok false
    /\ truthy data = true
    /\ is_reading E data.

(** What [main] leaves in the trace before its loop. *)
Definition startup (E : environment) : list event :=
  [Log INFO MsgStarting; Log INFO (MsgMonitoring (FACILITIES E));
   Log INFO MsgPollInterval; Connect; Close; Log INFO MsgDatabaseInitialized].

(** What the handling of one facility may add to the trace and to the
    table: requests for that facility only, at most [MAX_RETRIES + 1] of
    them, at most one connection, and at most one row per connection. *)
Definition facility_budget (facility : Z) (part : list event * list row)
  : Prop :=
  Forall (eq facility) (requests (fst part))
  /\ List.length (requests (fst part)) <= MAX_RETRIES + 1
  /\ connections (fst part) <= 1
  /\ List.length (snd part) <= connections (fst part).

(** * The dashboard's time axis ([visualize_parking.py]) *)

(** [int(x)] of a float: truncation toward zero. *)
Definition int_of_float (x : Q) : Z := Z.quot (Qnum x) (Z.pos (Qden x)).

(** [f"{n:02d}"]: the decimal digits, sign first, padded with a zero to
    two characters. *)
Definition format_02d (n : Z) : string :=
  let digits := NilZero.string_of_int (Z.to_int n) in
  if String.length digits <? 2 then "0" ++ digits else digits.

(** The key a reading is averaged under (lines 90-101): its hour, or, with
    30-minute granularity, [hour + (minute // 30) * 0.5].  The values are
    halves of integers, which floats hold exactly. *)
Definition time_bin (granularity : string) (hour minute : Z) : Q :=
  if (granularity =? "Hourly")%string then inject_Z hour
  else inject_Z hour + inject_Z (minute / 30) * (1 # 2).

(** The label of a bin (lines 123-129; the same expression formats the
    table at lines 331-334 and the insights at lines 357-361 and
    376-380). *)
Definition format_time (granularity : string) (x : Q) : string :=
  if (granularity =? "Hourly")%string then
    format_02d (int_of_float x) ++ ":00"
  else
    let hour := int_of_float x in
    let minute := if Qeq_bool x (inject_Z hour) then "00" else "30" in
    format_02d hour ++ ":" ++ minute.

(** The time axis of the chart (lines 194-198): [dtick] and [range]. *)
Definition dtick (granularity : string) : Q :=
  if (granularity =? "Hourly")%string then 1 else 1 # 2.

Definition X_RANGE : Q * Q := (- (1 # 2), 47 # 2).

(** * Properties *)

(** Unfolding of the monad, and case analysis on the innermost test. *)
Ltac unfold_monad :=
  unfold try_except, try_finally, bind, ret, log, print_stderr, lift,
    sys_exit, raise, sleep, requests_get, response_json, connect, close,
    now_isoformat in *.

Ltac case_split :=
  match goal with
  | |- context [match ?x with _ => _ end] =>
      lazymatch x with
      | context [match _ with _ => _ end] => fail
      | _ => destruct x eqn:?
      end
  end.

(** ** Traces *)

Lemma sleeps_app a b : sleeps (a ++ b) = sleeps a ++ sleeps b.
Proof. apply flat_map_app. Qed.

Lemma requests_app a b : requests (a ++ b) = requests a ++ requests b.
Proof. apply flat_map_app. Qed.

Lemma connections_app a b : connections (a ++ b) = connections a + connections b.
Proof. unfold connections. now rewrite flat_map_app, length_app. Qed.

Lemma pacing_sleeps_app a b :
  pacing_sleeps (a ++ b) = pacing_sleeps a + pacing_sleeps b.
Proof.
  unfold pacing_sleeps. now rewrite sleeps_app, filter_app, length_app.
Qed.

Lemma events_of_delta {A} (m : M A) w delta rows :
  snd (m w) = mkWorld (trace w ++ delta) rows -> events_of m w = delta.
Proof.
  unfold events_of, tick. intros ->. simpl.
  rewrite skipn_app, skipn_all, Nat.sub_diag. reflexivity.
Qed.

Lemma after_emit w delta e : emit e (after w delta) = after w (delta ++ [e]).
Proof. unfold emit, after. simpl. now rewrite app_assoc. Qed.

Lemma emit_after w e : emit e w = after w [e].
Proof. reflexivity. Qed.

Lemma after_after w a b : after (after w a) b = after w (a ++ b).
Proof. unfold after. simpl. now rewrite app_assoc. Qed.

Lemma tick_emit e w : tick (emit e w) = tick w + 1.
Proof. unfold tick, emit. simpl. apply length_app. Qed.

Lemma tick_after w delta : tick (after w delta) = tick w + List.length delta.
Proof. unfold tick, after. simpl. apply length_app. Qed.

Ltac world_norm :=
  rewrite ?emit_after, ?after_after; simpl app.

Ltac bool_to_prop :=
  repeat match goal with
         | Hb : (_ <? _) = true |- _ => apply Nat.ltb_lt in Hb
         | Hb : (_ <? _) = false |- _ => apply Nat.ltb_ge in Hb
         | Hb : (_ <=? _) = true |- _ => apply Nat.leb_le in Hb
         | Hb : (_ <=? _) = false |- _ => apply Nat.leb_gt in Hb
         | Hb : (_ || _) = true |- _ => apply orb_true_iff in Hb
         | Hb : (_ || _) = false |- _ => apply orb_false_iff in Hb
         | Hb : (_ && _) = true |- _ => apply andb_true_iff in Hb
         | Hb : (_ =? _)%Z = true |- _ => apply Z.eqb_eq in Hb
         | Hb : (_ =? _)%Z = false |- _ => apply Z.eqb_neq in Hb
         end.

Lemma py_in_raises key data e : py_in key data = Raise e -> e = TypeError.
Proof. destruct data; simpl; congruence. Qed.

Lemma py_getitem_raises data key e :
  py_getitem data key = Raise e -> e = TypeError \/ e = KeyError.
Proof.
  destruct data; simpl; try (intros [= <-]; now left).
  destruct (assoc key items); intros [= <-]. now right.
Qed.

Lemma py_get_raises data key default e :
  py_get data key default = Raise e -> e = AttributeError.
Proof.
  destruct data; simpl; try congruence.
  destruct (assoc key items); congruence.
Qed.

Ltac python_raises :=
  repeat match goal with
         | Hr : py_in _ _ = Raise _ |- _ => apply py_in_raises in Hr
         | Hr : py_get _ _ _ = Raise _ |- _ => apply py_get_raises in Hr
         | Hr : py_getitem _ _ = Raise _ |- _ =>
             apply py_getitem_raises in Hr; destruct Hr
         end.

(** ** The fetcher *)

Section Fetcher.

Variable E : environment.

(** The three exceptions the fetcher has a clause for never leave it. *)
Lemma fetch_catches facility retry_count w e w' :
  fetch_parking_data E facility retry_count w = (Raise e, w') ->
  e <> Timeout /\ e <> RequestException /\ e <> JSONDecodeError.
Proof.
  revert w e w'.
  funelim (fetch_parking_data E facility retry_count).
  intros w e w'. clear Heqcall. unfold_monad.
  pose proof (0%Z, Malformed) as response. pose proof Timeout as caught. pose proof tt as u.
  repeat (case_split; simpl in * );
    try (intros Heq; inversion Heq; subst; repeat split; discriminate);
    try solve [ intros Heq; eapply H0; eauto ];
    try solve [ intros Heq; eapply H; eauto ];
    exfalso;
    match goal with
    | Hf : fetch_parking_data _ _ _ _ = (Raise ?x, _) |- _ =>
        eapply H in Hf; eauto;
        destruct Hf as (? & ? & ?); congruence
    end.
Qed.

(** The fetcher as a decision table on what the request meets. *)
Lemma fetch_unfold facility retry_count w :
  api_key_missing E = false ->
  fetch_parking_data E facility retry_count w =
  let w1 := emit (Get facility) w in
  if interrupt E (tick w) then (Raise KeyboardInterrupt, w1)
  else
    match http E (tick w) facility with
    | Response status_code content =>
        if (status_code =? 200)%Z then
          match content with
          | Malformed => (Ok None, emit (Log ERROR (MsgJsonError facility)) w1)
          | Json data =>
              match py_in "ErrorDetails" data with
              | Raise e => (Raise e, w1)
              | Ok false =>
                  (Ok (Some data), emit (Log INFO (MsgFetched facility)) w1)
              | Ok true =>
                  match py_getitem data "ErrorDetails" with
                  | Raise e => (Raise e, w1)
                  | Ok details =>
                      match py_get details "Message" (PStr "Unknown error") with
                      | Raise e => (Raise e, w1)
                      | Ok detail =>
                          (Ok None,
                           emit (Log ERROR (MsgApiError facility detail)) w1)
                      end
                  end
              end
          end
        else if status_in status_code FATAL_STATUS_CODES then
          (Ok None, emit (Log ERROR (MsgFatalStatus status_code facility)) w1)
        else if status_in status_code RETRYABLE_STATUS_CODES then
          backoff E facility retry_count
            (MsgRetryableStatus status_code facility (retry_count + 1)
               (2 ^ Z.of_nat retry_count))
            (MsgMaxRetries facility) w1
        else
          (Ok None,
           emit (Log ERROR (MsgUnexpectedStatus status_code facility)) w1)
    | TimedOut =>
        backoff E facility retry_count
          (MsgTimeoutRetry facility (retry_count + 1) (2 ^ Z.of_nat retry_count))
          (MsgMaxRetriesTimeouts facility) w1
    | ConnectionFailed =>
        (Ok None, emit (Log ERROR (MsgRequestException facility)) w1)
    end.
Proof.
  intros Hkey. rewrite fetch_parking_data_equation_1, Hkey.
  unfold backoff, status_in. unfold_monad. cbv zeta.
  repeat (case_split; simpl in * ); try reflexivity; try congruence;
    try (python_raises; congruence);
    try match goal with
        | Hf : fetch_parking_data _ _ _ _ = (Raise _, _) |- _ =>
            apply fetch_catches in Hf; destruct Hf as (? & ? & ?); congruence
        end;
    bool_to_prop;
    try (exfalso; intuition (try discriminate; lia)).
Qed.
Lemma fetch_no_key facility retry_count w :
  api_key_missing E = true ->
  fetch_parking_data E facility retry_count w =
  (Ok None, emit (Log ERROR MsgApiKeyMissing) w).
Proof.
  intros Hkey. rewrite fetch_parking_data_equation_1, Hkey. reflexivity.
Qed.

Ltac fetch_leaf :=
  world_norm; eexists; split; [reflexivity|];
  split; [repeat (apply Forall_cons; [cbn; eauto|]); apply Forall_nil
         | cbn [List.length requests sleeps flat_map app]; lia].

Lemma fetch_effects_bounded k facility retry_count w :
  MAX_RETRIES - retry_count <= k ->
  exists delta,
    snd (fetch_parking_data E facility retry_count w) = after w delta
    /\ Forall (fetch_event facility) delta
    /\ List.length (requests delta) <= S (MAX_RETRIES - retry_count)
    /\ List.length (sleeps delta) <= MAX_RETRIES - retry_count.
Proof.
  revert retry_count w.
  induction k as [|k IH]; intros retry_count w Hk;
    (destruct (api_key_missing E) eqn:Hkey;
     [ rewrite fetch_no_key by assumption; fetch_leaf
     | rewrite fetch_unfold by assumption; cbv zeta;
       unfold backoff; unfold_monad;
       repeat (case_split; cbn [snd fst]) ]);
    bool_to_prop; try lia; try solve [fetch_leaf].
  all: match goal with
       | |- context [fetch_parking_data _ _ ?rc ?w3] =>
           destruct (IH rc w3) as (d & -> & Hev & Hreq & Hsl); [lia|]
       end;
    world_norm; eexists; split; [reflexivity|];
    (split;
     [ repeat (apply Forall_cons; [cbn; eauto|]); assumption
     | unfold requests, sleeps in *;
       cbn [List.length flat_map app]; lia ]).
Qed.

Lemma fetch_effects facility retry_count w :
  exists delta,
    snd (fetch_parking_data E facility retry_count w) = after w delta
    /\ Forall (fetch_event facility) delta
    /\ List.length (requests delta) <= S (MAX_RETRIES - retry_count)
    /\ List.length (sleeps delta) <= MAX_RETRIES - retry_count.
Proof. now apply (fetch_effects_bounded (MAX_RETRIES - retry_count)). Qed.

Lemma retryable_status status_code :
  status_code = 503%Z \/ status_code = 500%Z ->
  (status_code =? 200)%Z = false
  /\ status_in status_code FATAL_STATUS_CODES = false
  /\ status_in status_code RETRYABLE_STATUS_CODES = true.
Proof. intros [-> | ->]; repeat split; reflexivity. Qed.

(** Against an API that only answers 500 or 503, the fetcher sleeps
    [2 ^ retry_count], [2 ^ (retry_count + 1)], ... up to the last retry,
    then gives up. *)
Lemma fetch_backoff_from k facility retry_count w :
  retry_count + k = MAX_RETRIES ->
  api_key_missing E = false ->
  (forall t, interrupt E t = false) ->
  (forall t, exists status_code content,
      http E t facility = Response status_code content
      /\ (status_code = 503%Z \/ status_code = 500%Z)) ->
  exists delta,
    fetch_parking_data E facility retry_count w = (Ok None, after w delta)
    /\ sleeps delta
       = map (fun attempt => inject_Z (2 ^ Z.of_nat attempt)) (seq retry_count k)
    /\ requests delta = repeat facility (S k).
Proof.
  intros Hk Hkey Hquiet Hdown. revert retry_count w Hk.
  induction k as [|k IH]; intros retry_count w Hk;
    rewrite fetch_unfold by assumption; cbv zeta; rewrite Hquiet;
    destruct (Hdown (tick w)) as (status_code & content & -> & Hs);
    destruct (retryable_status _ Hs) as (-> & -> & ->); unfold backoff.
  - replace (retry_count <? MAX_RETRIES) with false
      by (symmetry; apply Nat.ltb_ge; lia).
    unfold_monad. world_norm. eexists. split; [reflexivity|].
    split; reflexivity.
  - replace (retry_count <? MAX_RETRIES) with true
      by (symmetry; apply Nat.ltb_lt; lia).
    unfold_monad. rewrite Hquiet.
    match goal with
    | |- context [fetch_parking_data _ _ ?rc ?w3] =>
        destruct (IH rc w3) as (d & -> & Hsl & Hreq); [lia|]
    end.
    world_norm. eexists. split; [reflexivity|].
    unfold sleeps, requests in *. cbn [flat_map app seq map repeat].
    rewrite Hsl, Hreq. replace (retry_count + 1) with (S retry_count) by lia.
    split; reflexivity.
Qed.

End Fetcher.


(** ** The persister *)

Lemma bind_parameter_raises v e :
  bind_parameter v = Raise e -> e = OverflowError \/ e = UnsupportedType.
Proof.
  destruct v; simpl; try discriminate; try (intros [= <-]; now right).
  destruct (_ && _)%bool; [discriminate | intros [= <-]; now left].
Qed.

(** Equality of stored values is an equivalence, hence so is having the
    same pair. *)
Lemma sql_eqb_refl a : sql_eqb a a = true.
Proof.
  destruct a; simpl; auto using Z.eqb_refl, String.eqb_refl.
  apply Qeq_bool_iff. reflexivity.
Qed.

Lemma sql_eqb_sym a b : sql_eqb a b = sql_eqb b a.
Proof.
  destruct a, b; simpl; auto using Z.eqb_sym, String.eqb_sym.
  destruct (Qeq_bool q q0) eqn:H1, (Qeq_bool q0 q) eqn:H2; auto.
  - apply Qeq_bool_iff in H1. symmetry in H1. apply Qeq_bool_iff in H1. congruence.
  - apply Qeq_bool_iff in H2. symmetry in H2. apply Qeq_bool_iff in H2. congruence.
Qed.

Lemma sql_eqb_trans a b c :
  sql_eqb a b = true -> sql_eqb b c = true -> sql_eqb a c = true.
Proof.
  destruct a, b, c; simpl; try discriminate; auto.
  - rewrite !Z.eqb_eq. congruence.
  - rewrite !Qeq_bool_iff. intros H1 H2. now rewrite H1.
  - rewrite !String.eqb_eq. congruence.
Qed.

Lemma same_key_refl a : same_key a a = true.
Proof. unfold same_key. now rewrite !sql_eqb_refl. Qed.

Lemma same_key_sym a b : same_key a b = same_key b a.
Proof.
  unfold same_key.
  now rewrite (sql_eqb_sym (facility_id a)), (sql_eqb_sym (message_date a)).
Qed.

Lemma same_key_trans a b c :
  same_key a b = true -> same_key b c = true -> same_key a c = true.
Proof.
  unfold same_key. rewrite !andb_true_iff. intros [H1 H2] [H3 H4].
  split; eapply sql_eqb_trans; eassumption.
Qed.

Lemma existsb_false_In {A} (f : A -> bool) l x :
  existsb f l = false -> In x l -> f x = false.
Proof.
  intros Hnone Hin. destruct (f x) eqn:Hfx; [|reflexivity].
  assert (existsb f l = true) by (apply existsb_exists; eauto). congruence.
Qed.

Lemma existsb_same_key a b rows :
  same_key a b = true ->
  existsb (same_key a) rows = existsb (same_key b) rows.
Proof.
  intros Hab. induction rows as [|x rows IH]; simpl; [reflexivity|].
  rewrite IH. f_equal.
  destruct (same_key a x) eqn:Hax, (same_key b x) eqn:Hbx; auto.
  - rewrite same_key_sym in Hab.
    rewrite (same_key_trans b a x Hab Hax) in Hbx. discriminate.
  - rewrite (same_key_trans a b x Hab Hbx) in Hax. discriminate.
Qed.

Lemma unique_keys_snoc rows r :
  unique_keys rows -> existsb (same_key r) rows = false ->
  unique_keys (rows ++ [r]).
Proof.
  induction rows as [|x rows IH]; simpl; [auto|].
  intros [Hx Hrows] Hr. apply orb_false_iff in Hr as [Hrx Hr].
  split; [|auto]. rewrite existsb_app, Hx. simpl.
  now rewrite same_key_sym, Hrx.
Qed.

Lemma key_count_unique rows k :
  unique_keys rows -> existsb (same_key k) rows = true ->
  key_count k rows = 1.
Proof.
  unfold key_count. induction rows as [|x rows IH]; simpl; [discriminate|].
  intros [Hx Hrows] Hk. destruct (same_key k x) eqn:Hkx; simpl.
  - rewrite (existsb_same_key k x rows Hkx) in *.
    clear IH Hk. f_equal.
    rewrite <- (existsb_same_key k x rows Hkx) in Hx.
    induction rows as [|y rows IH]; simpl in *; [reflexivity|].
    apply orb_false_iff in Hx as [-> Hx]. destruct Hrows. auto.
  - simpl in Hk. auto.
Qed.

Section Persister.

Variable E : environment.

(** The persister as a decision table on the payload and the table. *)
Lemma save_unfold data w :
  save_parking_data E data w =
  match extract_fields data with
  | Raise e => (Raise e, after w [Connect])
  | Ok fields =>
      let '(v_facility_id, v_facility_name, v_message_date,
            v_total_spots, v_total_occupancy) := fields in
      match bind_row fields (clock E (tick w + 1)) (json_dumps E data) with
      | Raise e => (Raise e, after w [Connect; Close])
      | Ok r =>
          if storage_fault E (tick w + 1) then
            (Raise OperationalError, after w [Connect; Close])
          else if not_null_violated r
                  || existsb (same_key (stored E r)) (db w) then
            (Ok tt,
             after w [Connect;
                      Log WARNING (MsgDuplicate v_facility_id v_message_date);
                      Close])
          else
            (Ok tt,
             mkWorld (trace w ++ [Connect;
                                  Log INFO (MsgSaved v_facility_id v_facility_name
                                              v_total_spots v_total_occupancy);
                                  Close])
                     (db w ++ [stored E r]))
      end
  end.
Proof.
  unfold save_parking_data, execute_insert, extract_fields, bind_row, and_then.
  unfold_monad.
  replace (tick (emit Connect w)) with (tick w + 1)
    by (unfold tick, emit; simpl; now rewrite length_app).
  repeat (case_split; simpl in * );
    try congruence;
    try (world_norm; reflexivity);
    try (unfold emit, after; simpl; rewrite <- ?app_assoc; reflexivity);
    try (repeat match goal with
                | Hb : bind_parameter _ = Raise _ |- _ =>
                    apply bind_parameter_raises in Hb; destruct Hb
                end; congruence).
Qed.

Lemma row_of_timestamp data t t' r :
  row_of E data t = Ok r ->
  row_of E data t'
  = Ok (mkRow (facility_id r) (facility_name r) (message_date r) (SqlText t')
              (total_spots r) (total_occupancy r) (raw_response r)).
Proof.
  unfold row_of, bind_row, and_then. simpl.
  repeat (case_split; try discriminate). intros [= <-]. reflexivity.
Qed.

Lemma row_of_raises data t t' e :
  row_of E data t = Raise e -> row_of E data t' = Raise e.
Proof.
  unfold row_of, bind_row, and_then. simpl.
  repeat (case_split; try discriminate); intros [= <-]; reflexivity.
Qed.

(** What a save returns and what it does to the table. *)
Lemma save_cases data w :
  storage_fault E (tick w + 1) = false ->
  match row_of E data (clock E (tick w + 1)) with
  | Raise e =>
      fst (save_parking_data E data w) = Raise e
      /\ db (snd (save_parking_data E data w)) = db w
  | Ok r =>
      fst (save_parking_data E data w) = Ok tt
      /\ db (snd (save_parking_data E data w))
         = if not_null_violated r || existsb (same_key (stored E r)) (db w)
           then db w else db w ++ [stored E r]
  end.
Proof.
  intros Hfault. rewrite save_unfold. unfold row_of, and_then.
  destruct (extract_fields data) as [[[[[a b] c] d] e]|]; [|now split].
  destruct (bind_row _ _ _); [|now split].
  rewrite Hfault. destruct (_ || _)%bool; now split.
Qed.

Lemma save_events data w :
  exists delta,
    trace (snd (save_parking_data E data w)) = trace w ++ Connect :: delta
    /\ sleeps delta = [] /\ requests delta = [] /\ connections delta = 0.
Proof.
  rewrite save_unfold.
  repeat (case_split; simpl); eexists; (split; [reflexivity|]);
    repeat split; reflexivity.
Qed.

(** The pair of a reading does not depend on when it is collected. *)
Lemma row_of_same_key data t t' r r' :
  row_of E data t = Ok r -> row_of E data t' = Ok r' ->
  same_key (stored E r) (stored E r') = true
  /\ not_null_violated r = not_null_violated r'.
Proof.
  intros Hr Hr'. rewrite (row_of_timestamp data t t' r Hr) in Hr'.
  injection Hr' as <-. split.
  - unfold same_key, stored. simpl. now rewrite !sql_eqb_refl.
  - pose proof (row_of_timestamp data t t r Hr) as Hself.
    rewrite Hr in Hself. injection Hself as Hself.
    apply (f_equal collected_at) in Hself. simpl in Hself.
    unfold not_null_violated. simpl. now rewrite Hself.
Qed.

(** The table keeps its invariant under any save. *)
Lemma save_unique_keys data w :
  unique_keys (db w) -> unique_keys (db (snd (save_parking_data E data w))).
Proof.
  intros Hdb. rewrite save_unfold.
  repeat (case_split; simpl); try assumption.
  apply orb_false_iff in Heqb0 as [_ Hfresh].
  now apply unique_keys_snoc.
Qed.

(** The table only grows. *)
Lemma save_db_grows data w :
  exists added, db (snd (save_parking_data E data w)) = db w ++ added.
Proof.
  rewrite save_unfold.
  repeat (case_split; simpl); try (exists []; now rewrite app_nil_r).
  eexists. reflexivity.
Qed.

(** With a working storage, a save only depends on the world through the
    table, and what it returns does not depend on the world at all. *)
Lemma save_result_static data w w' :
  (forall t, storage_fault E t = false) ->
  fst (save_parking_data E data w) = fst (save_parking_data E data w').
Proof.
  intros Hfault.
  pose proof (save_cases data w (Hfault _)) as Hw.
  pose proof (save_cases data w' (Hfault _)) as Hw'.
  destruct (row_of E data (clock E (tick w + 1))) as [r|e] eqn:Hr.
  - rewrite (row_of_timestamp _ _ (clock E (tick w' + 1)) _ Hr) in Hw'.
    destruct Hw as [-> _], Hw' as [-> _]. reflexivity.
  - rewrite (row_of_raises _ _ (clock E (tick w' + 1)) _ Hr) in Hw'.
    destruct Hw as [-> _], Hw' as [-> _]. reflexivity.
Qed.

(** Once a payload has been through a save, saving it again into any
    table that kept the rows changes nothing. *)
Lemma save_settled data w w' :
  (forall t, storage_fault E t = false) ->
  incl (db (snd (save_parking_data E data w))) (db w') ->
  db (snd (save_parking_data E data w')) = db w'.
Proof.
  intros Hfault Hincl.
  pose proof (save_cases data w (Hfault _)) as Hw.
  pose proof (save_cases data w' (Hfault _)) as Hw'.
  destruct (row_of E data (clock E (tick w + 1))) as [r|e] eqn:Hr.
  - destruct (row_of E data (clock E (tick w' + 1))) as [r'|e'] eqn:Hr';
      [|now destruct Hw'].
    destruct (row_of_same_key _ _ _ _ _ Hr Hr') as [Hkey Hnull].
    destruct Hw as [_ Hdb], Hw' as [_ ->]. rewrite Hdb in Hincl.
    rewrite <- Hnull.
    destruct (not_null_violated r); simpl in *; [reflexivity|].
    rewrite same_key_sym in Hkey.
    rewrite (existsb_same_key _ _ (db w') Hkey).
    replace (existsb (same_key (stored E r)) (db w')) with true; [reflexivity|].
    symmetry. apply existsb_exists.
    destruct (existsb (same_key (stored E r)) (db w)) eqn:Hdup.
    + apply existsb_exists in Hdup as (x & Hin & Hx). eauto.
    + exists (stored E r). split; [|apply same_key_refl].
      apply Hincl, in_or_app. right. now left.
  - rewrite (row_of_raises _ _ (clock E (tick w' + 1)) _ Hr) in Hw'.
    now destruct Hw'.
Qed.

End Persister.

(** ** The poll cycle *)

Lemma fetch_event_segment facility delta :
  Forall (fetch_event facility) delta ->
  Forall (eq facility) (requests delta)
  /\ pacing_sleeps delta = 0 /\ connections delta = 0.
Proof.
  induction 1 as [|e delta He _ (IHr & IHp & IHc)]; [now repeat split|].
  destruct e; simpl in He; try contradiction;
    unfold pacing_sleeps, connections in *; simpl.
  - now repeat split.
  - subst. repeat split; auto.
  - destruct He as [k ->]. unfold is_pacing. simpl.
    rewrite andb_false_r. repeat split; auto.
Qed.

Lemma paced_by_last_once todo segments :
  ~ In (last todo 0%Z) (removelast todo) ->
  List.length segments = List.length todo ->
  paced_by (last todo 0%Z) todo segments = paced segments.
Proof.
  revert segments.
  induction todo as [|facility todo IH]; intros [|seg rest] Honce Hlen;
    try discriminate; [reflexivity|].
  destruct todo as [|next todo].
  - destruct rest; [|discriminate]. simpl.
    rewrite Z.eqb_refl. now rewrite !app_nil_r.
  - destruct rest as [|seg' rest]; [discriminate|].
    change (last (facility :: next :: todo) 0%Z)
      with (last (next :: todo) 0%Z) in *.
    change (removelast (facility :: next :: todo))
      with (facility :: removelast (next :: todo)) in Honce.
    cbn [paced_by paced].
    replace (facility =? last (next :: todo) 0)%Z with false.
    + cbn [app]. f_equal. f_equal.
      apply (IH (seg' :: rest)); [|simpl in *; lia].
      intros Hin. apply Honce. now right.
    + symmetry. apply Z.eqb_neq. intros ->. apply Honce. now left.
Qed.

Lemma nodup_last_once (todo : list Z) :
  NoDup todo -> ~ In (last todo 0%Z) (removelast todo).
Proof.
  destruct (list_eq_dec Z.eq_dec todo []) as [->|Hne]; [auto|].
  destruct (exists_last Hne) as (front & a & ->).
  rewrite last_last, removelast_last. intros Hnd Hin.
  apply NoDup_remove_2 in Hnd. apply Hnd. now rewrite app_nil_r.
Qed.

Lemma pacing_sleeps_pacing tr :
  pacing_sleeps (Sleep RATE_LIMIT_DELAY :: tr) = S (pacing_sleeps tr).
Proof. reflexivity. Qed.

Lemma pacing_sleeps_paced todo segments :
  Forall2 segment_of todo segments ->
  pacing_sleeps (paced segments) = List.length todo - 1.
Proof.
  induction 1 as [|facility seg todo rest [_ Hseg] Hrest IH]; [reflexivity|].
  destruct Hrest as [|facility' seg' todo' rest' Hseg' Hrest'].
  - simpl. exact Hseg.
  - change (paced (seg :: seg' :: rest'))
      with (seg ++ Sleep RATE_LIMIT_DELAY :: paced (seg' :: rest')).
    rewrite pacing_sleeps_app, Hseg, pacing_sleeps_pacing, IH. simpl. lia.
Qed.

Section Cycle.

Variable E : environment.

Lemma segment_of_app facility a b :
  segment_of facility a -> segment_of facility b -> segment_of facility (a ++ b).
Proof.
  intros [Ha Hpa] [Hb Hpb]. split.
  - rewrite requests_app. apply Forall_app. now split.
  - rewrite pacing_sleeps_app. lia.
Qed.

(** One facility of a cycle that goes on: its fetch returned, the
    persister was called once if the payload is truthy and not at all
    otherwise, and the pacing sleep follows unless the facility bears
    the last id of the list. *)
Lemma poll_facility_spec facility success_count w success_count' w' :
  poll_facility E facility success_count w = (Ok success_count', w') ->
  exists data w1 seg,
    fetch_parking_data E facility 0 w = (Ok data, w1)
    /\ trace w' = trace w ++ seg
                   ++ (if (facility =? last (FACILITIES E) 0)%Z then []
                       else [Sleep RATE_LIMIT_DELAY])
    /\ segment_of facility seg
    /\ connections seg = (if truthy_opt data then 1 else 0)
    /\ success_count' = success_count + connections seg.
Proof.
  unfold poll_facility. unfold_monad.
  destruct (fetch_effects E facility 0 w) as (delta & Hw1 & Hev & _).
  apply fetch_event_segment in Hev as (Hreq & Hpace & Hconn).
  destruct (fetch_parking_data E facility 0 w) as [[data|e] w1] eqn:Hfetch;
    [|discriminate].
  simpl in Hw1. subst w1.
  assert (Hskip :
    forall c (w2 : world) seg,
      trace w2 = trace w ++ seg -> segment_of facility seg ->
      connections seg = (if truthy_opt data then 1 else 0) ->
      c = success_count + connections seg ->
      (let (r, w3) :=
         (if negb (facility =? last (FACILITIES E) 0)%Z
          then fun w0 => if interrupt E (tick w0)
                         then (Raise KeyboardInterrupt, emit (Sleep RATE_LIMIT_DELAY) w0)
                         else (Ok tt, emit (Sleep RATE_LIMIT_DELAY) w0)
          else fun w0 => (Ok tt, w0)) w2 in
       match r with
       | Ok _ => (Ok c, w3)
       | Raise e => (Raise e, w3)
       end) = (Ok success_count', w') ->
      exists data0 w1 seg0,
        (Ok data, after w delta) = (Ok data0, w1)
        /\ trace w' = trace w ++ seg0
                       ++ (if (facility =? last (FACILITIES E) 0)%Z then []
                           else [Sleep RATE_LIMIT_DELAY])
        /\ segment_of facility seg0
        /\ connections seg0 = (if truthy_opt data0 then 1 else 0)
        /\ success_count' = success_count + connections seg0).
  { intros c w2 seg Htr Hseg Hc Hcount.
    destruct (facility =? last (FACILITIES E) 0)%Z; simpl.
    - intros [= <- <-]. exists data, (after w delta), seg.
      rewrite app_nil_r. auto.
    - destruct (interrupt E (tick w2)); [discriminate|].
      intros [= <- <-]. exists data, (after w delta), seg.
      simpl. rewrite Htr, <- app_assoc. auto. }
  destruct data as [payload|]; simpl.
  - destruct (truthy payload) eqn:Htruthy.
    + destruct (save_events E payload (after w delta)) as (d' & Htr & Hs & Hr & Hc).
      destruct (save_parking_data E payload (after w delta)) as [[[]|e] w2];
        [|discriminate].
      simpl in Htr. apply (Hskip _ w2 (delta ++ Connect :: d')).
      * rewrite Htr. now rewrite app_assoc.
      * apply segment_of_app; [now split|].
        change (Connect :: d') with ([Connect] ++ d').
        split; [rewrite requests_app, Hr; constructor|].
        rewrite pacing_sleeps_app. unfold pacing_sleeps at 2. now rewrite Hs.
      * simpl. rewrite Htruthy, connections_app, Hconn.
        change (Connect :: d') with ([Connect] ++ d').
        now rewrite connections_app, Hc.
      * rewrite connections_app, Hconn.
        change (Connect :: d') with ([Connect] ++ d').
        rewrite connections_app, Hc. reflexivity.
    + apply (Hskip _ (after w delta) delta); simpl; auto.
      * now split.
      * now rewrite Htruthy.
      * lia.
  - apply (Hskip _ (after w delta) delta); simpl; auto.
    + now split.
    + lia.
Qed.

Lemma connections_pacing facility :
  connections (if (facility =? last (FACILITIES E) 0)%Z then []
               else [Sleep RATE_LIMIT_DELAY]) = 0.
Proof. now destruct (_ =? _)%Z. Qed.

(** The loop of a cycle that goes on to its end. *)
Lemma poll_facilities_spec todo success_count w success_count' w' :
  poll_facilities E todo success_count w = (Ok success_count', w') ->
  exists segments,
    Forall2 segment_of todo segments
    /\ trace w' = trace w ++ paced_by (last (FACILITIES E) 0%Z) todo segments
    /\ success_count'
       = success_count
         + connections (paced_by (last (FACILITIES E) 0%Z) todo segments)
    /\ connections (paced_by (last (FACILITIES E) 0%Z) todo segments)
       = List.length (filter truthy_opt (fetched E todo success_count w))
    /\ List.length (fetched E todo success_count w) = List.length todo.
Proof.
  revert success_count w.
  induction todo as [|facility todo IH]; intros success_count w Hrun.
  - injection Hrun as <- <-. exists []. simpl.
    rewrite app_nil_r. repeat split; auto.
  - simpl in Hrun. unfold bind in Hrun.
    destruct (poll_facility E facility success_count w) as [[c1|e] w1] eqn:Hone;
      [|discriminate].
    destruct (poll_facility_spec _ _ _ _ _ Hone)
      as (data & wf & seg & Hfetch & Htr & Hseg & Hconn & Hc1).
    destruct (IH _ _ Hrun) as (segments & Hsegs & Htr' & Hc' & Hcount & Hlen).
    exists (seg :: segments). cbn [paced_by fetched].
    rewrite Hfetch, Hone. cbn [filter List.length].
    rewrite !connections_app, connections_pacing, Hconn.
    repeat split.
    + now constructor.
    + rewrite Htr', Htr. now rewrite <- !app_assoc.
    + lia.
    + destruct (truthy_opt data); simpl; lia.
    + now rewrite Hlen.
Qed.

Lemma poll_all_facilities_spec w success w' :
  poll_all_facilities E w = (Ok success, w') ->
  exists segments success_count,
    Forall2 segment_of (FACILITIES E) segments
    /\ events_of (poll_all_facilities E) w
       = Log INFO (MsgCycleStart (List.length (FACILITIES E)))
         :: paced_by (last (FACILITIES E) 0%Z) (FACILITIES E) segments
         ++ [Log INFO (MsgCycleComplete success_count
                         (List.length (FACILITIES E)))]
    /\ success_count
       = connections (paced_by (last (FACILITIES E) 0%Z) (FACILITIES E) segments)
    /\ success_count
       = List.length
           (filter truthy_opt
              (fetched E (FACILITIES E) 0
                 (emit (Log INFO (MsgCycleStart (List.length (FACILITIES E)))) w)))
    /\ List.length
         (fetched E (FACILITIES E) 0
            (emit (Log INFO (MsgCycleStart (List.length (FACILITIES E)))) w))
       = List.length (FACILITIES E)
    /\ success = (0 <? success_count).
Proof.
  intros Hrun. pose proof Hrun as Hall.
  unfold poll_all_facilities in Hrun. unfold_monad.
  destruct (poll_facilities E (FACILITIES E) 0 _) as [[k|e] w1] eqn:Hloop;
    [|discriminate].
  injection Hrun as <- <-.
  destruct (poll_facilities_spec _ _ _ _ _ Hloop)
    as (segments & Hsegs & Htr & Hk & Hcount & Hlen).
  exists segments, k. simpl in Hk. repeat split; auto.
  - eapply events_of_delta with (rows := db w1). rewrite Hall. simpl.
    unfold emit at 1. simpl. rewrite Htr. simpl.
    now rewrite <- !app_assoc.
  - now rewrite <- Hcount.
Qed.

(** *** Running a cycle again *)

Lemma fetch_db facility retry_count w :
  db (snd (fetch_parking_data E facility retry_count w)) = db w.
Proof.
  destruct (fetch_effects E facility retry_count w) as (delta & -> & _).
  reflexivity.
Qed.

Lemma poll_facility_db facility success_count w :
  exists added,
    db (snd (poll_facility E facility success_count w)) = db w ++ added.
Proof.
  unfold poll_facility. unfold_monad.
  pose proof (fetch_db facility 0 w) as Hdb.
  destruct (fetch_parking_data E facility 0 w) as [[[payload|]|e] w1];
    simpl in *; rewrite <- Hdb.
  - destruct (truthy payload).
    + destruct (save_db_grows E payload w1) as (added & Hgrow).
      destruct (save_parking_data E payload w1) as [[[]|e] w2]; simpl in *;
        [|now exists added].
      exists added. repeat (case_split; simpl); assumption.
    + exists []. rewrite app_nil_r. repeat (case_split; simpl); reflexivity.
  - exists []. rewrite app_nil_r. repeat (case_split; simpl); reflexivity.
  - exists []. now rewrite app_nil_r.
Qed.

Lemma poll_facilities_db todo success_count w :
  exists added,
    db (snd (poll_facilities E todo success_count w)) = db w ++ added.
Proof.
  revert success_count w.
  induction todo as [|facility todo IH]; intros success_count w; simpl.
  - exists []. now rewrite app_nil_r.
  - unfold bind.
    destruct (poll_facility_db facility success_count w) as (a1 & Ha1).
    destruct (poll_facility E facility success_count w) as [[c1|e] w1];
      simpl in *; [|now exists a1].
    destruct (IH c1 w1) as (a2 & ->). rewrite Ha1.
    exists (a1 ++ a2). now rewrite app_assoc.
Qed.

Lemma poll_facility_unique_keys facility success_count w :
  unique_keys (db w) ->
  unique_keys (db (snd (poll_facility E facility success_count w))).
Proof.
  intros Hdb. unfold poll_facility. unfold_monad.
  rewrite <- (fetch_db facility 0 w) in Hdb.
  destruct (fetch_parking_data E facility 0 w) as [[[payload|]|e] w1];
    simpl in *; try assumption.
  - destruct (truthy payload).
    + pose proof (save_unique_keys E payload w1 Hdb) as Hsaved.
      destruct (save_parking_data E payload w1) as [[[]|e] w2]; simpl in *;
        [|assumption].
      repeat (case_split; simpl); assumption.
    + repeat (case_split; simpl); assumption.
  - repeat (case_split; simpl); assumption.
Qed.

Lemma poll_all_facilities_unique_keys w :
  unique_keys (db w) -> unique_keys (db (snd (poll_all_facilities E w))).
Proof.
  intros Hdb. unfold poll_all_facilities. unfold_monad.
  assert (Hloop : forall todo c w0,
             unique_keys (db w0) ->
             unique_keys (db (snd (poll_facilities E todo c w0)))).
  { induction todo as [|f todo IH]; intros c w0 Hw0; simpl; [assumption|].
    unfold bind. pose proof (poll_facility_unique_keys f c w0 Hw0) as Hone.
    destruct (poll_facility E f c w0) as [[c1|e] w1]; simpl in *; auto. }
  specialize (Hloop (FACILITIES E) 0
                (emit (Log INFO (MsgCycleStart (List.length (FACILITIES E)))) w)
                Hdb).
  destruct (poll_facilities E (FACILITIES E) 0 _) as [[k|e] w1]; assumption.
Qed.

Section Unchanged.

(** The API gives each facility one answer, whenever it is asked; nobody
    interrupts; the storage works. *)
Variable upstream : Z -> http_outcome.
Hypothesis Hupstream : forall t facility, http E t facility = upstream facility.
Hypothesis Hquiet : forall t, interrupt E t = false.
Hypothesis Hstorage : forall t, storage_fault E t = false.

Lemma fetch_result_static_bounded k facility retry_count w w' :
  MAX_RETRIES - retry_count <= k ->
  fst (fetch_parking_data E facility retry_count w)
  = fst (fetch_parking_data E facility retry_count w').
Proof.
  revert retry_count w w'.
  induction k as [|k IH]; intros retry_count w w' Hk;
    (destruct (api_key_missing E) eqn:Hkey;
     [ now rewrite !fetch_no_key by assumption
     | rewrite !fetch_unfold by assumption; cbv zeta;
       rewrite !Hquiet, !Hupstream; unfold backoff; unfold_monad;
       rewrite ?Hquiet;
       repeat (case_split; cbn [fst snd]); try reflexivity;
       try match goal with
           | Hi : interrupt _ _ = true |- _ =>
               rewrite Hquiet in Hi; discriminate
           end;
       bool_to_prop; try lia ]).
  all: apply IH; lia.
Qed.

Lemma fetch_result_static facility retry_count w w' :
  fst (fetch_parking_data E facility retry_count w)
  = fst (fetch_parking_data E facility retry_count w').
Proof. now apply (fetch_result_static_bounded (MAX_RETRIES - retry_count)). Qed.

(** One facility of a cycle, by what its fetch returns. *)
Lemma poll_facility_cases facility success_count w :
  let w1 := snd (fetch_parking_data E facility 0 w) in
  match fst (fetch_parking_data E facility 0 w) with
  | Raise e =>
      fst (poll_facility E facility success_count w) = Raise e
      /\ db (snd (poll_facility E facility success_count w)) = db w
  | Ok data =>
      match (if truthy_opt data then data else None) with
      | Some payload =>
          fst (poll_facility E facility success_count w)
          = match fst (save_parking_data E payload w1) with
            | Ok _ => Ok (success_count + 1)
            | Raise e => Raise e
            end
          /\ db (snd (poll_facility E facility success_count w))
             = db (snd (save_parking_data E payload w1))
      | None =>
          fst (poll_facility E facility success_count w) = Ok success_count
          /\ db (snd (poll_facility E facility success_count w)) = db w
      end
  end.
Proof.
  unfold poll_facility. unfold_monad.
  pose proof (fetch_db facility 0 w) as Hdb.
  destruct (fetch_parking_data E facility 0 w) as [[[payload|]|e] w1];
    simpl in *; rewrite <- ?Hdb.
  - destruct (truthy payload).
    + destruct (save_parking_data E payload w1) as [[[]|e] w2]; simpl;
        [|now split].
      destruct (negb _); simpl; rewrite ?Hquiet; now split.
    + destruct (negb _); simpl; rewrite ?Hquiet; now split.
  - destruct (negb _); simpl; rewrite ?Hquiet; now split.
  - now split.
Qed.

(** A cycle over tables that kept what an earlier cycle over the same
    facilities left writes nothing. *)
Lemma poll_facilities_settled todo c w c2 w2 :
  incl (db (snd (poll_facilities E todo c w))) (db w2) ->
  db (snd (poll_facilities E todo c2 w2)) = db w2.
Proof.
  revert c w c2 w2.
  induction todo as [|facility todo IH]; intros c w c2 w2 Hincl;
    [reflexivity|].
  simpl in *. unfold bind in *.
  pose proof (poll_facility_cases facility c w) as H1.
  pose proof (poll_facility_cases facility c2 w2) as H2.
  cbv zeta in H1, H2.
  rewrite (fetch_result_static facility 0 w2 w) in H2.
  pose proof (fetch_db facility 0 w) as Hdb1.
  pose proof (fetch_db facility 0 w2) as Hdb2.
  destruct (poll_facility E facility c w) as [r1 wa] eqn:Hrun1.
  destruct (poll_facility E facility c2 w2) as [r2 wb] eqn:Hrun2.
  simpl in *.
  assert (Hwa : incl (db wa) (db w2)).
  { destruct r1 as [c1|e]; [|exact Hincl].
    destruct (poll_facilities_db todo c1 wa) as (added & Hgrow).
    rewrite Hgrow in Hincl. intros x Hx. apply Hincl, in_or_app. now left. }
  assert (Hsame : db wb = db w2
                  /\ (forall c1, r1 = Ok c1 -> exists c3, r2 = Ok c3)
                  /\ (forall e, r1 = Raise e -> r2 = Raise e)).
  { destruct (fst (fetch_parking_data E facility 0 w)) as [data|e].
    - destruct (if truthy_opt data then data else None) as [payload|].
      + destruct H1 as [Hr1 Hd1], H2 as [Hr2 Hd2].
        rewrite (save_result_static E payload _
                   (snd (fetch_parking_data E facility 0 w)) Hstorage) in Hr2.
        split.
        * rewrite Hd2, <- Hdb2. apply (save_settled E payload
                   (snd (fetch_parking_data E facility 0 w))); [assumption|].
          rewrite <- Hd1, Hdb2. exact Hwa.
        * subst r1 r2.
          destruct (fst (save_parking_data E payload _)); split;
            intros; try discriminate; eauto; congruence.
      + destruct H1 as [-> _], H2 as [-> ->].
        split; [reflexivity|]. split; intros; try discriminate; eauto.
    - destruct H1 as [-> _], H2 as [-> ->].
      split; [reflexivity|]. split; intros; try discriminate; congruence. }
  destruct Hsame as (Hdbb & Hok & Hraise).
  destruct r1 as [c1|e].
  - destruct (Hok c1 eq_refl) as (c3 & ->).
    rewrite (IH c1 wa c3 wb); [assumption | now rewrite Hdbb].
  - rewrite (Hraise e eq_refl). exact Hdbb.
Qed.

Lemma poll_all_facilities_db w :
  db (snd (poll_all_facilities E w))
  = db (snd (poll_facilities E (FACILITIES E) 0
               (emit (Log INFO (MsgCycleStart (List.length (FACILITIES E)))) w))).
Proof.
  unfold poll_all_facilities. unfold_monad.
  destruct (poll_facilities E (FACILITIES E) 0 _) as [[k|e] w1]; reflexivity.
Qed.

(** A cycle run again over unchanged data leaves the table as the first
    one left it. *)
Lemma poll_all_facilities_idempotent w :
  let w1 := snd (poll_all_facilities E w) in
  db (snd (poll_all_facilities E w1)) = db w1.
Proof.
  intros w1. rewrite poll_all_facilities_db.
  erewrite poll_facilities_settled; [reflexivity|].
  simpl. unfold w1. rewrite poll_all_facilities_db. apply incl_refl.
Qed.

End Unchanged.

End Cycle.

(** ** The supervisor *)

Section Supervisor.

Variable E : environment.

(** One turn of the loop as a decision table on how the cycle ends and
    on whether the operator interrupts the sleep that follows. *)
Lemma main_iteration_unfold consecutive_failures w :
  main_iteration E consecutive_failures w =
  let n := consecutive_failures + 1 in
  match poll_all_facilities E w with
  | (Ok true, w1) =>
      if interrupt E (tick w1 + 1) then
        (Raise (SystemExit 0),
         after w1 [Log INFO MsgWaiting; Sleep POLL_INTERVAL_SECONDS;
                   Log INFO MsgInterrupt])
      else
        (Ok 0, after w1 [Log INFO MsgWaiting; Sleep POLL_INTERVAL_SECONDS])
  | (Ok false, w1) =>
      if MAX_CONSECUTIVE_FAILURES <=? n then
        (Raise (SystemExit 1),
         after w1 [Log ERROR (MsgIntervalFailed n);
                   Log ERROR MsgCriticalIntervals;
                   Stderr MsgCriticalIntervals])
      else if interrupt E (tick w1 + 2) then
        (Raise (SystemExit 0),
         after w1 [Log ERROR (MsgIntervalFailed n); Log INFO MsgWaiting;
                   Sleep POLL_INTERVAL_SECONDS; Log INFO MsgInterrupt])
      else
        (Ok n,
         after w1 [Log ERROR (MsgIntervalFailed n); Log INFO MsgWaiting;
                   Sleep POLL_INTERVAL_SECONDS])
  | (Raise KeyboardInterrupt, w1) =>
      (Raise (SystemExit 0), after w1 [Log INFO MsgInterrupt])
  | (Raise (SystemExit code), w1) => (Raise (SystemExit code), w1)
  | (Raise e, w1) =>
      if MAX_CONSECUTIVE_FAILURES <=? n then
        (Raise (SystemExit 1),
         after w1 [Log ERROR (MsgUnexpectedError e);
                   Log ERROR MsgCriticalErrors;
                   Stderr MsgCriticalErrors])
      else if interrupt E (tick w1 + 1) then
        (Raise KeyboardInterrupt,
         after w1 [Log ERROR (MsgUnexpectedError e);
                   Sleep POLL_INTERVAL_SECONDS])
      else
        (Ok n,
         after w1 [Log ERROR (MsgUnexpectedError e);
                   Sleep POLL_INTERVAL_SECONDS])
  end.
Proof.
  unfold main_iteration. unfold_monad. cbv zeta.
  repeat (case_split; cbn [fst snd]);
    rewrite ?tick_emit, <- ?Nat.add_assoc in *; cbn [Nat.add] in *;
    try congruence; world_norm; reflexivity.
Qed.

(** A turn that hands over to the next one leaves the counter below the
    threshold. *)
Lemma main_iteration_below_threshold consecutive_failures w n w' :
  main_iteration E consecutive_failures w = (Ok n, w') ->
  n < MAX_CONSECUTIVE_FAILURES.
Proof.
  rewrite main_iteration_unfold. cbv zeta.
  repeat (case_split; try discriminate); intros [= <- <-];
    bool_to_prop; unfold MAX_CONSECUTIVE_FAILURES in *; lia.
Qed.

(** While the process is in its loop the counter is below the threshold. *)
Lemma main_loop_below_threshold turns consecutive_failures w n :
  consecutive_failures < MAX_CONSECUTIVE_FAILURES ->
  fst (main_loop E turns consecutive_failures w) = Running n ->
  n < MAX_CONSECUTIVE_FAILURES.
Proof.
  revert consecutive_failures w.
  induction turns as [|turns IH]; intros c w Hc; simpl.
  - now intros [= <-].
  - pose proof (main_iteration_below_threshold c w) as Hbelow.
    destruct (main_iteration E c w) as [[n'|e] w1].
    + apply IH. eapply Hbelow. reflexivity.
    + destruct e; discriminate.
Qed.

(** Once a turn has left through [sys.exit], no further turn is taken. *)
Lemma main_loop_exit turns consecutive_failures w code w' :
  main_iteration E consecutive_failures w = (Raise (SystemExit code), w') ->
  main_loop E (S turns) consecutive_failures w = (Exited code, w').
Proof. intros Hturn. simpl. now rewrite Hturn. Qed.

Lemma main_loop_continue turns consecutive_failures w n w' :
  main_iteration E consecutive_failures w = (Ok n, w') ->
  main_loop E (S turns) consecutive_failures w = main_loop E turns n w'.
Proof. intros Hturn. simpl. now rewrite Hturn. Qed.

(** A failing cycle, when nobody interrupts: the counter goes up by one
    below the threshold, and at the threshold the process exits with
    status 1 right after the cycle. *)
Lemma main_iteration_failure consecutive_failures w :
  (forall t, interrupt E t = false) ->
  cycle_fails E w ->
  let n := consecutive_failures + 1 in
  if n <? MAX_CONSECUTIVE_FAILURES then
    fst (main_iteration E consecutive_failures w) = Ok n
  else
    fst (main_iteration E consecutive_failures w) = Raise (SystemExit 1)
    /\ exists tail,
         snd (main_iteration E consecutive_failures w)
         = after (snd (poll_all_facilities E w)) tail
         /\ requests tail = [] /\ sleeps tail = []
         /\ (In (Stderr MsgCriticalIntervals) tail
             \/ In (Stderr MsgCriticalErrors) tail).
Proof.
  intros Hquiet Hfail n. rewrite main_iteration_unfold. cbv zeta. fold n.
  unfold cycle_fails in Hfail.
  destruct (poll_all_facilities E w) as [[[|]|e'] w1]; simpl in Hfail;
    (destruct Hfail as [Hfalse | (e & Hraise & Hexc)];
     try discriminate; try (injection Hraise as <-));
    (destruct (n <? MAX_CONSECUTIVE_FAILURES) eqn:Hn;
     [ replace (MAX_CONSECUTIVE_FAILURES <=? n) with false
         by (symmetry; bool_to_prop; apply Nat.leb_gt; lia)
     | replace (MAX_CONSECUTIVE_FAILURES <=? n) with true
         by (symmetry; bool_to_prop; apply Nat.leb_le; lia) ]);
    try (destruct e'; try discriminate); rewrite ?Hquiet; cbn [fst snd];
    first [ reflexivity
          | split; [reflexivity|]; eexists; split; [reflexivity|];
            simpl; auto 10 ].
Qed.

(** A successful cycle, when nobody interrupts, resets the counter. *)
Lemma main_iteration_success consecutive_failures w :
  (forall t, interrupt E t = false) ->
  fst (poll_all_facilities E w) = Ok true ->
  fst (main_iteration E consecutive_failures w) = Ok 0.
Proof.
  intros Hquiet Hok. rewrite main_iteration_unfold. cbv zeta.
  destruct (poll_all_facilities E w) as [[[|]|e'] w1]; simpl in *;
    try discriminate.
  now rewrite Hquiet.
Qed.

End Supervisor.

(** C1.  A fetch that meets HTTP 503 (or 500) at every attempt sleeps five
    times, 1, 2, 4, 8 and 16 seconds, that is [2 ^ attempt] for the
    attempts 0 to 4, sends six requests and returns no data.  The store is
    left as it was. *)
Theorem fetch_unavailable_backoff_schedule :
  forall (E : environment) (facility : Z) (w : world),
    api_key_missing E = false ->
    (forall t, interrupt E t = false) ->
    (forall t, exists status_code content,
        http E t facility = Response status_code content
        /\ (status_code = 503%Z \/ status_code = 500%Z)) ->
    fst (fetch_parking_data E facility 0 w) = Ok None
    /\ sleeps (events_of (fetch_parking_data E facility 0) w)
       = map inject_Z [1; 2; 4; 8; 16]%Z
    /\ sleeps (events_of (fetch_parking_data E facility 0) w)
       = map (fun attempt => inject_Z (2 ^ Z.of_nat attempt)) (seq 0 MAX_RETRIES)
    /\ requests (events_of (fetch_parking_data E facility 0) w)
       = repeat facility (MAX_RETRIES + 1)
    /\ db (snd (fetch_parking_data E facility 0 w)) = db w.
Proof.
  intros E facility w Hkey Hquiet Hdown.
  destruct (fetch_backoff_from E MAX_RETRIES facility 0 w eq_refl Hkey Hquiet Hdown)
    as (delta & Hrun & Hsl & Hreq).
  rewrite (events_of_delta _ w delta (db w)) by now rewrite Hrun.
  rewrite Hrun, Hsl, Hreq. repeat split; reflexivity.
Qed.

Lemma fetch_unavailable_backoff_schedule_witness :
  fst (fetch_parking_data env_unavailable 29 0 empty_world) = Ok None
  /\ sleeps (events_of (fetch_parking_data env_unavailable 29 0) empty_world)
     = map inject_Z [1; 2; 4; 8; 16]%Z.
Proof.
  destruct (fetch_unavailable_backoff_schedule env_unavailable 29 empty_world)
    as (Hnone & Hsleeps & _).
  - reflexivity.
  - reflexivity.
  - intros t. exists 503%Z, Malformed. split; [reflexivity | now left].
  - split; assumption.
Defined.

(** C3.  A fetch that meets HTTP 403 returns no data at once: one request,
    the fatal log line, no sleep, whatever the retry count.  The fatal
    test comes first, so a status that reaches the retryable test is never
    403 and the [== 403] alternative there changes nothing. *)
Theorem fetch_forbidden_is_fatal :
  forall (E : environment) (facility : Z) (retry_count : nat) (w : world)
         (content : body),
    api_key_missing E = false ->
    interrupt E (tick w) = false ->
    http E (tick w) facility = Response 403 content ->
    fetch_parking_data E facility retry_count w
    = (Ok None, after w [Get facility; Log ERROR (MsgFatalStatus 403 facility)])
    /\ sleeps (events_of (fetch_parking_data E facility retry_count) w) = []
    /\ status_in 403 FATAL_STATUS_CODES = true
    /\ (forall status_code : Z,
          (status_code =? 200)%Z = false ->
          status_in status_code FATAL_STATUS_CODES = false ->
          (status_code =? 403)%Z = false
          /\ status_in status_code RETRYABLE_STATUS_CODES || (status_code =? 403)%Z
             = status_in status_code RETRYABLE_STATUS_CODES).
Proof.
  intros E facility retry_count w content Hkey Hquiet Hhttp.
  assert (Hrun : fetch_parking_data E facility retry_count w
                 = (Ok None,
                    after w [Get facility; Log ERROR (MsgFatalStatus 403 facility)])).
  { rewrite fetch_unfold by assumption. cbv zeta. rewrite Hquiet, Hhttp.
    simpl. world_norm. reflexivity. }
  split; [exact Hrun|]. split.
  - rewrite (events_of_delta _ w
               [Get facility; Log ERROR (MsgFatalStatus 403 facility)] (db w))
      by now rewrite Hrun.
    reflexivity.
  - split; [reflexivity|]. intros status_code _ Hfatal.
    assert (H403 : (status_code =? 403)%Z = false).
    { unfold status_in in Hfatal. simpl in Hfatal.
      apply orb_false_iff in Hfatal as [_ Hfatal].
      apply orb_false_iff in Hfatal as [Hfatal _]. exact Hfatal. }
    rewrite H403, orb_false_r. split; reflexivity.
Qed.

Lemma fetch_forbidden_is_fatal_witness :
  fetch_parking_data env_forbidden 30 2 empty_world
  = (Ok None, after empty_world [Get 30; Log ERROR (MsgFatalStatus 403 30)]).
Proof.
  apply (fetch_forbidden_is_fatal env_forbidden 30 2 empty_world Malformed);
    reflexivity.
Defined.

(** The claim as the specification has it, that any HTTP 200 body with
    an [ErrorDetails] field makes the fetch return no data, fails when the
    field holds a string. *)
Lemma fetch_error_details_text_raises :
  ~ (forall (E : environment) (facility : Z) (retry_count : nat) (w : world)
            (items : list (string * pyval)) (details : pyval),
        api_key_missing E = false ->
        interrupt E (tick w) = false ->
        http E (tick w) facility = Response 200 (Json (PDict items)) ->
        assoc "ErrorDetails" items = Some details ->
        fst (fetch_parking_data E facility retry_count w) = Ok None).
Proof.
  intros H.
  specialize (H env_api_error_text 29%Z 0 empty_world
                [("ErrorDetails", PStr "Rate limit exceeded")]
                (PStr "Rate limit exceeded")
                eq_refl eq_refl eq_refl eq_refl).
  vm_compute in H. discriminate H.
Qed.

(** What the branch of lines 101-103 does right: a fetch that meets HTTP
    200 with a JSON object holding an [ErrorDetails] field sends that one
    request and never sleeps, whatever the retry count, and when
    [ErrorDetails] is itself an object the fetch logs its [Message] (or
    "Unknown error") and returns no data. *)
Lemma fetch_error_details_no_retry :
  forall (E : environment) (facility : Z) (retry_count : nat) (w : world)
         (items : list (string * pyval)) (details : pyval),
    api_key_missing E = false ->
    interrupt E (tick w) = false ->
    http E (tick w) facility = Response 200 (Json (PDict items)) ->
    assoc "ErrorDetails" items = Some details ->
    sleeps (events_of (fetch_parking_data E facility retry_count) w) = []
    /\ requests (events_of (fetch_parking_data E facility retry_count) w)
       = [facility]
    /\ db (snd (fetch_parking_data E facility retry_count w)) = db w
    /\ (forall fields, details = PDict fields ->
          fetch_parking_data E facility retry_count w
          = (Ok None,
             after w [Get facility;
                      Log ERROR
                        (MsgApiError facility
                           match assoc "Message" fields with
                           | Some text => text
                           | None => PStr "Unknown error"
                           end)])).
Proof.
  intros E facility retry_count w items details Hkey Hquiet Hhttp Hfield.
  pose proof (fetch_unfold E facility retry_count w Hkey) as Hrun.
  cbv zeta in Hrun. rewrite Hquiet, Hhttp in Hrun. simpl in Hrun.
  rewrite Hfield in Hrun. rewrite ?emit_after, ?after_after in Hrun.
  destruct details; simpl in Hrun;
    try (rewrite (events_of_delta _ w [Get facility] (db w))
           by (now rewrite Hrun);
         rewrite Hrun; repeat split; try reflexivity; intros ? [=]).
  destruct (assoc "Message" items0) eqn:Hmsg;
    rewrite ?emit_after, ?after_after in Hrun; simpl app in Hrun;
    (rewrite (events_of_delta _ w
                [Get facility;
                 Log ERROR
                   (MsgApiError facility
                      match assoc "Message" items0 with
                      | Some text => text
                      | None => PStr "Unknown error"
                      end)] (db w))
       by (now rewrite Hrun, Hmsg);
     rewrite Hrun; repeat split; try reflexivity;
     intros fields [= <-]; rewrite Hmsg; reflexivity).
Qed.

Lemma fetch_error_details_no_retry_witness :
  fetch_parking_data env_api_error 31 0 empty_world
  = (Ok None,
     after empty_world
       [Get 31; Log ERROR (MsgApiError 31 (PStr "Rate limit exceeded"))]).
Proof.
  destruct (fetch_error_details_no_retry env_api_error 31 0 empty_world
              [("ErrorDetails", PDict [("Message", PStr "Rate limit exceeded")])]
              (PDict [("Message", PStr "Rate limit exceeded")])
              eq_refl eq_refl eq_refl eq_refl) as (_ & _ & _ & Hrun).
  exact (Hrun _ eq_refl).
Defined.

(** C8.  The branch that handles an application-level error means to log
    it and return no data, as every other failure path of the fetcher
    does.  It builds its log line with [data['ErrorDetails'].get(...)]
    (line 102): when [ErrorDetails] is anything but an object the call
    raises [AttributeError] before the line is logged, no clause of the
    fetcher catches it, and the fetch raises instead of returning no
    data.  In a cycle the exception aborts the loop: the facilities that
    follow are not polled. *)
Theorem fetch_error_details_not_object_raises :
  forall (E : environment) (facility : Z) (retry_count : nat) (w : world)
         (items : list (string * pyval)) (details : pyval),
    api_key_missing E = false ->
    interrupt E (tick w) = false ->
    http E (tick w) facility = Response 200 (Json (PDict items)) ->
    assoc "ErrorDetails" items = Some details ->
    (forall fields, details <> PDict fields) ->
    fetch_parking_data E facility retry_count w
    = (Raise AttributeError, after w [Get facility])
    /\ (forall (rest : list Z) (success_count : nat),
           poll_facilities E (facility :: rest) success_count w
           = (Raise AttributeError, after w [Get facility])).
Proof.
  intros E facility retry_count w items details Hkey Hquiet Hhttp Hfield Hshape.
  assert (Hfetch : forall n,
             fetch_parking_data E facility n w
             = (Raise AttributeError, after w [Get facility])).
  { intros n. rewrite fetch_unfold by assumption. cbv zeta.
    rewrite Hquiet, Hhttp. simpl. rewrite Hfield.
    destruct details; try reflexivity.
    exfalso. eapply Hshape. reflexivity. }
  split; [apply Hfetch|].
  intros rest success_count. cbn [poll_facilities].
  unfold bind, poll_facility. unfold_monad. now rewrite Hfetch.
Qed.

Lemma fetch_error_details_not_object_raises_witness :
  fetch_parking_data env_api_error_text 29 0 empty_world
  = (Raise AttributeError, after empty_world [Get 29])
  /\ fst (poll_all_facilities env_api_error_text empty_world)
     = Raise AttributeError
  /\ requests (events_of (poll_all_facilities env_api_error_text) empty_world)
     = [29%Z].
Proof.
  split.
  - apply (fetch_error_details_not_object_raises env_api_error_text 29 0
             empty_world [("ErrorDetails", PStr "Rate limit exceeded")]
             (PStr "Rate limit exceeded"));
      try reflexivity.
    intros fields. discriminate.
  - split; vm_compute; reflexivity.
Defined.

(** C10.  The fetcher is a total function of the facility, the retry
    count and the world: whatever the API answers, a call made with retry
    count [n] sends at most [MAX_RETRIES - n + 1] requests and sleeps at
    most [MAX_RETRIES - n] times, each time a power of two seconds.  From
    retry count 0 that is at most 6 requests and 5 sleeps. *)
Theorem fetch_terminates_within_budget :
  forall (E : environment) (facility : Z) (retry_count : nat) (w : world),
    let run := fetch_parking_data E facility retry_count in
    (exists r w', run w = (r, w') /\ trace w' = trace w ++ events_of run w)
    /\ List.length (requests (events_of run w)) <= MAX_RETRIES - retry_count + 1
    /\ List.length (sleeps (events_of run w)) <= MAX_RETRIES - retry_count
    /\ Forall (fetch_event facility) (events_of run w)
    /\ (retry_count = 0 ->
        List.length (requests (events_of run w)) <= 6
        /\ List.length (sleeps (events_of run w)) <= 5).
Proof.
  intros E facility retry_count w run.
  destruct (fetch_effects E facility retry_count w)
    as (delta & Hrun & Hev & Hreq & Hsl).
  fold run in Hrun.
  rewrite (events_of_delta run w delta (db w)) by exact Hrun.
  split.
  - destruct (run w) as [r w'] eqn:Hw. exists r, w'. split; [reflexivity|].
    simpl in Hrun. now rewrite Hrun.
  - split; [lia|]. split; [exact Hsl|]. split; [exact Hev|].
    intros ->. split; [exact Hreq | exact Hsl].
Qed.

(** C6, as the specification has it: a cycle returns true exactly when a
    reading was persisted in it.  A second cycle over unchanged data
    returns true although every write is skipped as a duplicate. *)
Lemma poll_true_without_persisted_reading :
  ~ (forall (E : environment) (w : world) (success : bool) (w' : world),
        poll_all_facilities E w = (Ok success, w') ->
        (success = true <-> List.length (db w) < List.length (db w'))).
Proof.
  intros H.
  pose (w1 := snd (poll_all_facilities env_healthy empty_world)).
  specialize (H env_healthy w1 true (snd (poll_all_facilities env_healthy w1))).
  assert (Hrun : poll_all_facilities env_healthy w1
                 = (Ok true, snd (poll_all_facilities env_healthy w1)))
    by (vm_compute; reflexivity).
  apply H in Hrun. destruct Hrun as [Hgrow _].
  specialize (Hgrow eq_refl). vm_compute in Hgrow.
  exact (Nat.lt_irrefl _ Hgrow).
Qed.

(** C6, amended.  A cycle that runs to its end returns true exactly when
    some facility's fetch returned a non-empty payload; the persister is
    called once for each such facility and for no other, whether it
    inserts the row or skips it.  When every fetch returns a non-empty
    payload the persister is called once per facility, and the cycle
    returns true if the list is not empty. *)
Theorem poll_success_counts_fetches :
  forall (E : environment) (w : world) (success : bool) (w' : world),
    poll_all_facilities E w = (Ok success, w') ->
    let started :=
      emit (Log INFO (MsgCycleStart (List.length (FACILITIES E)))) w in
    let got := fetched E (FACILITIES E) 0 started in
    List.length got = List.length (FACILITIES E)
    /\ connections (events_of (poll_all_facilities E) w)
       = List.length (filter truthy_opt got)
    /\ (success = true <-> exists data, In data got /\ truthy_opt data = true)
    /\ (Forall (fun data => truthy_opt data = true) got ->
        connections (events_of (poll_all_facilities E) w)
        = List.length (FACILITIES E)
        /\ (FACILITIES E <> [] -> success = true)).
Proof.
  intros E w success w' Hrun started got.
  destruct (poll_all_facilities_spec E w success w' Hrun)
    as (segments & k & _ & Hev & Hk & Hcount & Hlen & Hsuccess).
  fold started in Hcount, Hlen. fold got in Hcount, Hlen.
  assert (Hconn : connections (events_of (poll_all_facilities E) w) = k).
  { rewrite Hev.
    change (Log INFO (MsgCycleStart (List.length (FACILITIES E))) :: ?l)
      with ([Log INFO (MsgCycleStart (List.length (FACILITIES E)))] ++ l).
    rewrite !connections_app, <- Hk. cbn. lia. }
  rewrite Hconn, <- Hcount. split; [exact Hlen|]. split; [reflexivity|].
  assert (Hsome : 0 < k <-> exists data, In data got /\ truthy_opt data = true).
  { rewrite Hcount. split.
    - intros Hpos. destruct (filter truthy_opt got) as [|data l] eqn:Hf;
        [simpl in Hpos; lia|].
      exists data. apply filter_In. rewrite Hf. now left.
    - intros (data & Hin & Htruthy).
      assert (In data (filter truthy_opt got)) by now apply filter_In.
      destruct (filter truthy_opt got); [contradiction | simpl; lia]. }
  split.
  - rewrite <- Hsome, Hsuccess. apply Nat.ltb_lt.
  - intros Hall.
    assert (Hfull : filter truthy_opt got = got).
    { clear -Hall. induction Hall as [|data l Hd _ IH]; [reflexivity|].
      simpl. now rewrite Hd, IH. }
    rewrite Hcount, Hfull, Hlen. split; [reflexivity|].
    intros Hne. rewrite Hsuccess. apply Nat.ltb_lt.
    rewrite Hcount, Hfull, Hlen.
    destruct (FACILITIES E); [contradiction | simpl; lia].
Qed.

Lemma poll_success_counts_fetches_witness :
  connections (events_of (poll_all_facilities env_healthy) empty_world) = 4
  /\ fst (poll_all_facilities env_healthy empty_world) = Ok true.
Proof.
  destruct (poll_success_counts_fetches env_healthy empty_world true
              (snd (poll_all_facilities env_healthy empty_world)))
    as (_ & _ & _ & Hall).
  - vm_compute. reflexivity.
  - destruct Hall as [Hconn _].
    + vm_compute. repeat constructor.
    + split; [exact Hconn | vm_compute; reflexivity].
Defined.

(** The guard of line 201 compares ids, not positions: the sleep is
    skipped after every entry that bears the last id of the list.  On a
    list of facilities, which names each of them once, that is the last
    entry and no other.  The hypothesis of the theorem below cannot be
    dropped: a list that named its last facility twice would lose a
    sleep. *)
Lemma poll_pacing_lost_on_repeated_last_id :
  ~ (forall (E : environment) (w : world) (success : bool) (w' : world),
        poll_all_facilities E w = (Ok success, w') ->
        pacing_sleeps (events_of (poll_all_facilities E) w)
        = List.length (FACILITIES E) - 1).
Proof.
  intros H.
  specialize (H env_twice empty_world true
                (snd (poll_all_facilities env_twice empty_world))).
  assert (Hrun : poll_all_facilities env_twice empty_world
                 = (Ok true, snd (poll_all_facilities env_twice empty_world)))
    by (vm_compute; reflexivity).
  apply H in Hrun. vm_compute in Hrun. discriminate Hrun.
Qed.

(** C7.  The configured list names each facility once.  Whenever the
    last id of the list does not occur earlier in it, as in every such
    list and in the shipped [29, 30, 31, 32], a cycle that runs to its
    end handles the facilities one after the other in the order of the
    list: its events are the start line, then one segment per facility
    holding only that facility's requests and no pacing sleep, with
    exactly one sleep of [RATE_LIMIT_DELAY] between two segments and none
    after the last, then the summary line.  That makes one pacing sleep
    fewer than facilities. *)
Theorem poll_paces_between_facilities :
  forall (E : environment) (w : world) (success : bool) (w' : world),
    ~ In (last (FACILITIES E) 0%Z) (removelast (FACILITIES E)) ->
    poll_all_facilities E w = (Ok success, w') ->
    (exists segments success_count,
        Forall2 segment_of (FACILITIES E) segments
        /\ events_of (poll_all_facilities E) w
           = Log INFO (MsgCycleStart (List.length (FACILITIES E)))
             :: paced segments
             ++ [Log INFO (MsgCycleComplete success_count
                             (List.length (FACILITIES E)))])
    /\ pacing_sleeps (events_of (poll_all_facilities E) w)
       = List.length (FACILITIES E) - 1.
Proof.
  intros E w success w' Honce Hrun.
  destruct (poll_all_facilities_spec E w success w' Hrun)
    as (segments & k & Hsegs & Hev & _).
  rewrite paced_by_last_once in Hev;
    [|assumption | symmetry; eapply Forall2_length; eassumption].
  split; [exists segments, k; now split|].
  rewrite Hev.
  change (Log INFO (MsgCycleStart (List.length (FACILITIES E))) :: ?l)
    with ([Log INFO (MsgCycleStart (List.length (FACILITIES E)))] ++ l).
  rewrite !pacing_sleeps_app, (pacing_sleeps_paced _ _ Hsegs).
  cbn. lia.
Qed.

Lemma poll_paces_between_facilities_witness :
  pacing_sleeps (events_of (poll_all_facilities env_healthy) empty_world) = 3.
Proof.
  apply (poll_paces_between_facilities env_healthy empty_world true
           (snd (poll_all_facilities env_healthy empty_world))).
  - apply nodup_last_once. repeat constructor; simpl; intuition discriminate.
  - vm_compute. reflexivity.
Defined.

(** C4.  The persister's [except sqlite3.IntegrityError] clause takes a
    [NOT NULL] violation for a duplicate: a payload without [facility_id]
    is not stored, nothing is raised, and the log says "Duplicate data
    detected".  A failure of the storage itself does reach the caller. *)
Theorem save_swallows_not_null_violation :
  save_parking_data env_healthy payload_without_facility_id empty_world
  = (Ok tt,
     after empty_world
       [Connect;
        Log WARNING (MsgDuplicate PNone (PStr "2026-01-01T00:00:00"));
        Close])
  /\ row_of env_healthy payload_without_facility_id "2026-01-01T00:00:00"
     = Ok (mkRow SqlNull (SqlText "Park&Ride") (SqlText "2026-01-01T00:00:00")
             (SqlText "2026-01-01T00:00:00") (SqlInteger 100) (SqlInteger 40)
             (SqlText "{}"))
  /\ fst (save_parking_data env_disk_failure (reading_payload 29) empty_world)
     = Raise OperationalError.
Proof. repeat split; vm_compute; reflexivity. Qed.

(** C5.  Whatever the payload, a save keeps the pairs (facility id,
    message timestamp) of the table unique.  With a working storage,
    saving two readings that carry the same pair raises nothing either
    time and leaves exactly one row with that pair.  Against an API whose
    answers do not change, a cycle run a second time leaves the table,
    hence its row count, as the first cycle left it. *)
Theorem persister_keeps_pairs_unique :
  forall (E : environment) (d1 d2 : pyval) (w : world)
         (upstream : Z -> http_outcome),
    (forall t, storage_fault E t = false) ->
    (forall t, interrupt E t = false) ->
    (forall t facility, http E t facility = upstream facility) ->
    unique_keys (db w) ->
    complete_reading E d1 ->
    is_reading E d2 ->
    same_pair E d1 d2 ->
    let first := save_parking_data E d1 w in
    let second := save_parking_data E d2 (snd first) in
    let once := snd (poll_all_facilities E w) in
    let twice := snd (poll_all_facilities E once) in
    (forall data w0,
        unique_keys (db w0) ->
        unique_keys (db (snd (save_parking_data E data w0))))
    /\ fst first = Ok tt
    /\ fst second = Ok tt
    /\ db (snd second) = db (snd first)
    /\ unique_keys (db (snd second))
    /\ (forall t r, row_of E d1 t = Ok r ->
                    key_count (stored E r) (db (snd second)) = 1)
    /\ db twice = db once
    /\ List.length (db twice) = List.length (db once)
    /\ unique_keys (db twice).
Proof.
  intros E d1 d2 w upstream Hstorage Hquiet Hupstream Hunique Hd1 Hd2 Hpair
         first second once twice.
  split; [intros data w0; apply save_unique_keys|].
  pose proof (save_cases E d1 w (Hstorage _)) as H1.
  destruct (Hd1 (clock E (tick w + 1))) as (r1 & Hr1 & Hnull1).
  rewrite Hr1, Hnull1 in H1. simpl in H1. fold first in H1.
  destruct H1 as [Hok1 Hdb1].
  assert (Hin1 : existsb (same_key (stored E r1)) (db (snd first)) = true).
  { rewrite Hdb1.
    destruct (existsb (same_key (stored E r1)) (db w)) eqn:Hdup; [assumption|].
    rewrite existsb_app. simpl. now rewrite same_key_refl, orb_true_r. }
  pose proof (save_cases E d2 (snd first) (Hstorage _)) as H2.
  destruct (Hd2 (clock E (tick (snd first) + 1))) as (r2 & Hr2).
  rewrite Hr2 in H2. fold second in H2. destruct H2 as [Hok2 Hdb2].
  pose proof (Hpair _ _ _ _ Hr1 Hr2) as Hsame.
  rewrite <- (existsb_same_key _ _ _ Hsame), Hin1, orb_true_r in Hdb2.
  assert (Hu1 : unique_keys (db (snd first)))
    by now apply save_unique_keys.
  split; [exact Hok1|]. split; [exact Hok2|]. split; [exact Hdb2|].
  split; [now rewrite Hdb2|]. split.
  - intros t r Hr. rewrite Hdb2. apply key_count_unique; [assumption|].
    destruct (row_of_same_key E d1 _ _ _ _ Hr Hr1) as [Hkey _].
    now rewrite (existsb_same_key _ _ _ Hkey).
  - pose proof (poll_all_facilities_idempotent E upstream
                  Hupstream Hquiet Hstorage w) as Hidem.
    cbv zeta in Hidem. fold once in Hidem. fold twice in Hidem.
    split; [exact Hidem|]. split; [now rewrite Hidem|].
    rewrite Hidem. now apply poll_all_facilities_unique_keys.
Qed.

Lemma persister_keeps_pairs_unique_witness :
  let first := save_parking_data env_healthy (reading_payload 29) empty_world in
  let second := save_parking_data env_healthy reading_payload_again (snd first) in
  fst second = Ok tt /\ List.length (db (snd second)) = 1.
Proof.
  destruct (persister_keeps_pairs_unique env_healthy
              (reading_payload 29) reading_payload_again empty_world
              (fun f => Response 200 (Json (reading_payload f))))
    as (_ & _ & Hsecond & _).
  - reflexivity.
  - reflexivity.
  - reflexivity.
  - exact I.
  - intros t. eexists. split; reflexivity.
  - intros t. eexists. reflexivity.
  - intros t1 t2 r1 r2 [= <-] [= <-]. reflexivity.
  - split; [exact Hsecond | vm_compute; reflexivity].
Defined.

(** C2.  When nobody interrupts, a successful cycle resets the counter
    of consecutive failures; a cycle that returns false or lets an
    exception through raises it by one; when it thereby reaches
    [MAX_CONSECUTIVE_FAILURES] the process exits with status 1 right after
    that cycle, with no sleep, no request and no further turn.  So three
    failing cycles in a row end the process whatever the number of turns
    it is observed for, and the loop never starts a turn with the counter
    at the threshold. *)
Theorem supervisor_halts_on_third_failure :
  forall (E : environment) (consecutive_failures : nat) (w : world),
    consecutive_failures < MAX_CONSECUTIVE_FAILURES ->
    (forall t, interrupt E t = false) ->
    let turn := main_iteration E consecutive_failures w in
    (fst (poll_all_facilities E w) = Ok true -> fst turn = Ok 0)
    /\ (cycle_fails E w ->
        (consecutive_failures + 1 < MAX_CONSECUTIVE_FAILURES ->
         fst turn = Ok (consecutive_failures + 1))
        /\ (consecutive_failures + 1 = MAX_CONSECUTIVE_FAILURES ->
            (forall turns,
                main_loop E (S turns) consecutive_failures w
                = (Exited 1, snd turn))
            /\ exists tail,
                snd turn = after (snd (poll_all_facilities E w)) tail
                /\ requests tail = [] /\ sleeps tail = []))
    /\ (forall turns n,
          fst (main_loop E turns consecutive_failures w) = Running n ->
          n < MAX_CONSECUTIVE_FAILURES)
    /\ (let w1 := snd (main_iteration E 0 w) in
        let w2 := snd (main_iteration E 1 w1) in
        cycle_fails E w -> cycle_fails E w1 -> cycle_fails E w2 ->
        forall turns,
          main_loop E (3 + turns) 0 w
          = (Exited 1, snd (main_iteration E 2 w2))).
Proof.
  intros E n w Hn Hquiet turn.
  split; [now apply main_iteration_success|]. split; [|split].
  - intros Hfail.
    pose proof (main_iteration_failure E n w Hquiet Hfail) as Hturn.
    cbv zeta in Hturn. fold turn in Hturn. split.
    + intros Hlt. apply Nat.ltb_lt in Hlt. now rewrite Hlt in Hturn.
    + intros Heq.
      replace (n + 1 <? MAX_CONSECUTIVE_FAILURES) with false in Hturn
        by (symmetry; apply Nat.ltb_ge; lia).
      destruct Hturn as (Hexit & tail & Htail & Hreq & Hsl & _). split.
      * intros turns. apply main_loop_exit.
        unfold turn in *. destruct (main_iteration E n w) as [r w'].
        simpl in *. now subst r.
      * exists tail. auto.
  - intros turns n'. now apply main_loop_below_threshold.
  - intros w1 w2 Hf0 Hf1 Hf2 turns.
    pose proof (main_iteration_failure E 0 w Hquiet Hf0) as H0.
    pose proof (main_iteration_failure E 1 w1 Hquiet Hf1) as H1.
    pose proof (main_iteration_failure E 2 w2 Hquiet Hf2) as H2.
    cbv zeta in H0, H1, H2.
    change (0 + 1 <? MAX_CONSECUTIVE_FAILURES) with true in H0.
    change (1 + 1 <? MAX_CONSECUTIVE_FAILURES) with true in H1.
    change (2 + 1 <? MAX_CONSECUTIVE_FAILURES) with false in H2.
    cbv iota in H0, H1, H2. destruct H2 as [H2 _].
    change (0 + 1) with 1 in H0. change (1 + 1) with 2 in H1.
    change (3 + turns) with (S (S (S turns))).
    rewrite (main_loop_continue E _ 0 w 1 w1);
      [|unfold w1; destruct (main_iteration E 0 w); simpl in *; now subst].
    rewrite (main_loop_continue E _ 1 w1 2 w2);
      [|unfold w2; destruct (main_iteration E 1 w1); simpl in *; now subst].
    apply main_loop_exit.
    destruct (main_iteration E 2 w2); simpl in *; now subst.
Qed.

Lemma supervisor_halts_on_third_failure_witness :
  main_loop env_unavailable (3 + 4) 0 empty_world
  = (Exited 1,
     snd (main_iteration env_unavailable 2
            (snd (main_iteration env_unavailable 1
                    (snd (main_iteration env_unavailable 0 empty_world)))))).
Proof.
  destruct (supervisor_halts_on_third_failure env_unavailable 0 empty_world)
    as (_ & _ & _ & Hthree).
  - unfold MAX_CONSECUTIVE_FAILURES. lia.
  - reflexivity.
  - apply Hthree; left; vm_compute; reflexivity.
Defined.

(** C9.  An interrupt during the sleep that follows a cycle which
    returned is caught and ends the process with status 0.  The sleep that
    follows a cycle which raised sits in the [except Exception] handler,
    outside the [try]: an interrupt there is caught by nothing and the
    process dies of [KeyboardInterrupt] instead of exiting with status
    0. *)
Theorem interrupt_after_crashed_cycle_is_uncaught :
  (forall turns,
      fst (main env_down_then_interrupt (S turns) empty_world) = Exited 0)
  /\ (forall turns,
         fst (main env_crash_then_interrupt (S turns) empty_world)
         = Traceback KeyboardInterrupt)
  /\ fst (poll_all_facilities env_crash_then_interrupt
            (snd (main env_crash_then_interrupt 0 empty_world)))
     = Raise AttributeError.
Proof.
  repeat split; intros; vm_compute; reflexivity.
Qed.

(** * Further properties *)

(** ** The fetcher, outcome by outcome *)

Lemma retryable_not_final status_code :
  status_in status_code RETRYABLE_STATUS_CODES = true ->
  (status_code =? 200)%Z = false
  /\ status_in status_code FATAL_STATUS_CODES = false.
Proof.
  unfold status_in. simpl. rewrite !orb_false_r, orb_true_iff, !Z.eqb_eq.
  intros [-> | ->]; split; reflexivity.
Qed.

Section FetcherOutcomes.

Variable E : environment.
Hypothesis Hkey : api_key_missing E = false.
Hypothesis Hquiet : forall t, interrupt E t = false.

(** One retryable outcome below the limit: a request, a warning, a sleep
    of [2 ** retry_count], and the next attempt. *)
Lemma fetch_retry_step facility retry_count w :
  retryable (http E (tick w) facility) = true ->
  retry_count < MAX_RETRIES ->
  exists warning,
    fetch_parking_data E facility retry_count w
    = fetch_parking_data E facility (retry_count + 1)
        (after w [Get facility; Log WARNING warning;
                  Sleep (backoff_seconds retry_count)]).
Proof.
  intros Hretry Hlt. rewrite fetch_unfold by assumption. cbv zeta.
  rewrite Hquiet. unfold backoff.
  replace (retry_count <? MAX_RETRIES) with true
    by (symmetry; now apply Nat.ltb_lt).
  destruct (http E (tick w) facility) as [status_code content| |];
    unfold retryable in Hretry; try discriminate.
  - destruct (retryable_not_final _ Hretry) as [-> ->]. rewrite Hretry.
    unfold_monad. rewrite Hquiet. world_norm. eexists. reflexivity.
  - unfold_monad. rewrite Hquiet. world_norm. eexists. reflexivity.
Qed.

(** One retryable outcome at the limit: a request, an error line, no
    data. *)
Lemma fetch_exhausted facility retry_count w :
  retryable (http E (tick w) facility) = true ->
  MAX_RETRIES <= retry_count ->
  exists exhausted,
    fetch_parking_data E facility retry_count w
    = (Ok None, after w [Get facility; Log ERROR exhausted]).
Proof.
  intros Hretry Hge. rewrite fetch_unfold by assumption. cbv zeta.
  rewrite Hquiet. unfold backoff.
  replace (retry_count <? MAX_RETRIES) with false
    by (symmetry; now apply Nat.ltb_ge).
  destruct (http E (tick w) facility) as [status_code content| |];
    unfold retryable in Hretry; try discriminate.
  - destruct (retryable_not_final _ Hretry) as [-> ->]. rewrite Hretry.
    unfold_monad. world_norm. eexists. reflexivity.
  - unfold_monad. world_norm. eexists. reflexivity.
Qed.

(** [k] retryable outcomes in a row, each met three instants after the
    one before. *)
Lemma fetch_after_retries k facility retry_count w :
  retry_count + k <= MAX_RETRIES ->
  (forall i, i < k -> retryable (http E (tick w + 3 * i) facility) = true) ->
  exists delta,
    fetch_parking_data E facility retry_count w
    = fetch_parking_data E facility (retry_count + k) (after w delta)
    /\ List.length delta = 3 * k
    /\ sleeps delta = map backoff_seconds (seq retry_count k)
    /\ requests delta = repeat facility k.
Proof.
  revert retry_count w.
  induction k as [|k IH]; intros retry_count w Hk Hout.
  - exists []. rewrite Nat.add_0_r. unfold after. rewrite app_nil_r.
    destruct w. repeat split; reflexivity.
  - destruct (fetch_retry_step facility retry_count w) as (warning & Hstep).
    + specialize (Hout 0 (Nat.lt_0_succ k)). now rewrite Nat.add_0_r in Hout.
    + lia.
    + destruct (IH (retry_count + 1)
                  (after w [Get facility; Log WARNING warning;
                            Sleep (backoff_seconds retry_count)]))
        as (delta & Hrun & Hlen & Hsl & Hreq).
      * lia.
      * intros i Hi. rewrite tick_after. simpl List.length.
        replace (tick w + 3 + 3 * i) with (tick w + 3 * S i) by lia.
        apply Hout. lia.
      * rewrite Hstep, Hrun, after_after.
        replace (retry_count + 1 + k) with (retry_count + S k) by lia.
        eexists. split; [reflexivity|].
        cbn [app List.length]. rewrite Hlen.
        unfold sleeps, requests in *. cbn [flat_map app seq map repeat].
        rewrite Hsl, Hreq. replace (retry_count + 1) with (S retry_count) by lia.
        repeat split; lia.
Qed.

End FetcherOutcomes.

Lemma py_getitem_after_in key data e :
  py_in key data = Ok true -> py_getitem data key = Raise e -> e = TypeError.
Proof.
  destruct data; simpl; try congruence.
  destruct (assoc key items); congruence.
Qed.

Lemma well_shaped_no_raise data :
  well_shaped (Response 200 (Json data)) = true ->
  (forall e, py_in "ErrorDetails" data <> Raise e)
  /\ (py_in "ErrorDetails" data = Ok true ->
      forall e, py_getitem data "ErrorDetails" <> Raise e)
  /\ (forall details, py_getitem data "ErrorDetails" = Ok details ->
      forall e, py_get details "Message" (PStr "Unknown error") <> Raise e).
Proof.
  unfold well_shaped. change (200 =? 200)%Z with true. cbv iota.
  destruct data; try discriminate. unfold py_in, py_getitem.
  destruct (assoc "ErrorDetails" items) as [details|]; intros Hshape;
    repeat split; try discriminate.
  intros d [= <-] e. destruct details; try discriminate.
  unfold py_get. destruct (assoc "Message" items0); discriminate.
Qed.

Section FetcherAnyOutcome.

Variable E : environment.

(** The payload a fetch returns is a body the API sent for that facility
    under status 200 during the call, free of [ErrorDetails]. *)
Lemma fetch_payload_bounded n facility retry_count w data w' :
  MAX_RETRIES - retry_count <= n ->
  fetch_parking_data E facility retry_count w = (Ok (Some data), w') ->
  exists t,
    tick w <= t /\ t < tick w'
    /\ http E t facility = Response 200 (Json data)
    /\ py_in "ErrorDetails" data = Ok false.
Proof.
  revert retry_count w.
  induction n as [|n IH]; intros retry_count w Hn;
    (destruct (api_key_missing E) eqn:Hkey;
     [ rewrite fetch_no_key by assumption; discriminate
     | rewrite fetch_unfold by assumption; cbv zeta;
       unfold backoff; unfold_monad;
       repeat (case_split; cbn [fst snd]); try discriminate ]);
    bool_to_prop; try lia.
  all: try solve [ intros [= <- <-]; exists (tick w); subst;
                   rewrite !tick_emit; repeat split; try assumption; lia ].
  all: intros Hrec; apply IH in Hrec; [|lia];
    destruct Hrec as (t & Hge & Hlt & Hhttp & Hin);
    rewrite !tick_emit in Hge; exists t; repeat split; try assumption; lia.
Qed.

(** What can leave the fetcher: an interrupt, or the two errors a body of
    an unexpected shape provokes. *)
Lemma fetch_raises_bounded n facility retry_count w e w' :
  MAX_RETRIES - retry_count <= n ->
  fetch_parking_data E facility retry_count w = (Raise e, w') ->
  e = KeyboardInterrupt \/ e = TypeError \/ e = AttributeError.
Proof.
  revert retry_count w.
  induction n as [|n IH]; intros retry_count w Hn;
    (destruct (api_key_missing E) eqn:Hkey;
     [ rewrite fetch_no_key by assumption; discriminate
     | rewrite fetch_unfold by assumption; cbv zeta;
       unfold backoff; unfold_monad;
       repeat (case_split; cbn [fst snd]); try discriminate ]);
    bool_to_prop; try lia.
  all: try solve [intros [= <- <-]; auto].
  all: try solve
         [ intros [= <- <-];
           match goal with
           | Hi : py_in _ _ = Raise _ |- _ =>
               apply py_in_raises in Hi; subst; auto
           | Hg : py_get _ _ _ = Raise _ |- _ =>
               apply py_get_raises in Hg; subst; auto
           | Hi : py_in _ ?d = Ok true, Hg : py_getitem ?d _ = Raise _ |- _ =>
               apply (py_getitem_after_in _ _ _ Hi) in Hg; subst; auto
           end ].
  all: intros Hrec; apply IH in Hrec; [assumption | lia].
Qed.

(** Whatever the API answers, the sleeps of a fetch are the first ones
    of [2 ** retry_count], [2 ** (retry_count + 1)], ..., and each is
    preceded by a request. *)
Lemma fetch_sleeps_prefix_bounded n facility retry_count w :
  MAX_RETRIES - retry_count <= n ->
  exists delta j,
    snd (fetch_parking_data E facility retry_count w) = after w delta
    /\ j <= MAX_RETRIES - retry_count
    /\ sleeps delta = map backoff_seconds (seq retry_count j)
    /\ (requests delta = repeat facility j
        \/ requests delta = repeat facility (S j)).
Proof.
  revert retry_count w.
  induction n as [|n IH]; intros retry_count w Hn;
    (destruct (api_key_missing E) eqn:Hkey;
     [ rewrite fetch_no_key by assumption; world_norm;
       eexists; exists 0; split; [reflexivity|];
       split; [lia|]; split; [reflexivity | now left]
     | rewrite fetch_unfold by assumption; cbv zeta;
       unfold backoff; unfold_monad;
       repeat (case_split; cbn [fst snd]) ]);
    bool_to_prop; try lia.
  all: try solve [ world_norm; eexists; exists 0; split; [reflexivity|];
                   split; [lia|]; split; [reflexivity | now right] ].
  all: try solve [ world_norm; eexists; exists 1; split; [reflexivity|];
                   split; [lia|]; split; [reflexivity | now left] ].
  all: match goal with
       | |- context [fetch_parking_data _ _ ?rc ?w3] =>
           destruct (IH rc w3) as (d & j & -> & Hj & Hsl & Hreq); [lia|]
       end;
    world_norm; eexists; exists (S j); (split; [reflexivity|]);
    (split; [lia|]);
    unfold sleeps, requests in *; cbn [flat_map app seq map repeat];
    rewrite Hsl; replace (retry_count + 1) with (S retry_count) by lia;
    (split; [reflexivity|]);
    destruct Hreq as [-> | ->]; [now left | now right].
Qed.

(** With nobody interrupting and well-shaped bodies, every path of the
    fetcher ends in a returned value. *)
Lemma fetch_returns_bounded n facility retry_count w :
  (forall t, interrupt E t = false) ->
  (forall t, well_shaped (http E t facility) = true) ->
  MAX_RETRIES - retry_count <= n ->
  exists r, fst (fetch_parking_data E facility retry_count w) = Ok r.
Proof.
  intros Hquiet Hshape. revert retry_count w.
  induction n as [|n IH]; intros retry_count w Hn;
    (destruct (api_key_missing E) eqn:Hkey;
     [ rewrite fetch_no_key by assumption; eexists; reflexivity
     | rewrite fetch_unfold by assumption; cbv zeta;
       unfold backoff; unfold_monad;
       pose proof (Hshape (tick w)) as Hbody;
       repeat (case_split; cbn [fst snd]) ]);
    try solve [eexists; reflexivity];
    try match goal with
        | Hi : interrupt _ _ = true |- _ => rewrite Hquiet in Hi; discriminate
        end;
    bool_to_prop; try lia;
    try solve [apply IH; lia].
  all: exfalso; subst;
    match goal with
    | Hb : well_shaped _ = true |- _ =>
        destruct (well_shaped_no_raise _ Hb) as (Hin & Hitem & Hget)
    end;
    first [ eapply Hin; eassumption
          | eapply Hitem; eassumption
          | eapply Hget; eassumption ].
Qed.

(** Where the fetcher can raise: under an interrupt, or right after a
    request that was answered with status 200. *)
Lemma fetch_raise_site_bounded n facility retry_count w e w' :
  MAX_RETRIES - retry_count <= n ->
  fetch_parking_data E facility retry_count w = (Raise e, w') ->
  e = KeyboardInterrupt
  \/ exists prefix content,
       trace w' = prefix ++ [Get facility]
       /\ tick w <= List.length prefix
       /\ http E (List.length prefix) facility = Response 200 content.
Proof.
  revert retry_count w.
  induction n as [|n IH]; intros retry_count w Hn;
    (destruct (api_key_missing E) eqn:Hkey;
     [ rewrite fetch_no_key by assumption; discriminate
     | rewrite fetch_unfold by assumption; cbv zeta;
       unfold backoff; unfold_monad;
       repeat (case_split; cbn [fst snd]); try discriminate ]);
    bool_to_prop; try lia.
  all: try solve [intros [= <- <-]; now left].
  all: try solve
         [ intros [= <- <-]; right; exists (trace w); eexists;
           unfold emit; cbn [trace]; split; [reflexivity|];
           split; [unfold tick; lia|]; fold (tick w); subst; eassumption ].
  all: intros Hrec; apply IH in Hrec; [|lia];
    destruct Hrec as [-> | (prefix & answered & Htr & Hlen & Hhttp)];
    [now left|]; right; exists prefix, answered;
    rewrite !tick_emit in Hlen; repeat split; try assumption; lia.
Qed.

End FetcherAnyOutcome.

(** X1.  A fetch that meets [k] retryable outcomes (timeouts, 500, 503) and
    then a body under status 200 without [ErrorDetails] returns that body,
    after [k] sleeps of 1, 2, 4, ... seconds and [k + 1] requests, provided
    the retries fit under [MAX_RETRIES]. *)
Theorem fetch_recovers_after_retries :
  forall (E : environment) (facility : Z) (retry_count k : nat) (w : world)
         (data : pyval),
    api_key_missing E = false ->
    (forall t, interrupt E t = false) ->
    retry_count + k <= MAX_RETRIES ->
    (forall i, i < k -> retryable (http E (tick w + 3 * i) facility) = true) ->
    http E (tick w + 3 * k) facility = Response 200 (Json data) ->
    py_in "ErrorDetails" data = Ok false ->
    fst (fetch_parking_data E facility retry_count w) = Ok (Some data)
    /\ sleeps (events_of (fetch_parking_data E facility retry_count) w)
       = map backoff_seconds (seq retry_count k)
    /\ requests (events_of (fetch_parking_data E facility retry_count) w)
       = repeat facility (k + 1)
    /\ db (snd (fetch_parking_data E facility retry_count w)) = db w.
Proof.
  intros E facility retry_count k w data Hkey Hquiet Hk Hretry Hok Hclean.
  destruct (fetch_after_retries E Hkey Hquiet k facility retry_count w Hk Hretry)
    as (delta & Hrun & Hlen & Hsl & Hreq).
  assert (Hend : fetch_parking_data E facility (retry_count + k) (after w delta)
                 = (Ok (Some data),
                    after w (delta ++ [Get facility; Log INFO (MsgFetched facility)]))).
  { rewrite fetch_unfold by assumption. cbv zeta.
    rewrite Hquiet, tick_after, Hlen, Hok. simpl. rewrite Hclean.
    world_norm. reflexivity. }
  rewrite Hend in Hrun.
  rewrite (events_of_delta _ w
             (delta ++ [Get facility; Log INFO (MsgFetched facility)]) (db w))
    by now rewrite Hrun.
  rewrite Hrun, sleeps_app, requests_app, Hsl, Hreq. simpl.
  rewrite app_nil_r. repeat split.
  clear. induction k as [|k IH]; simpl; [reflexivity | now rewrite IH].
Qed.

Lemma fetch_recovers_after_retries_witness :
  fst (fetch_parking_data env_flaky 29 0 empty_world)
  = Ok (Some (reading_payload 29))
  /\ sleeps (events_of (fetch_parking_data env_flaky 29 0) empty_world)
     = map inject_Z [1; 2]%Z.
Proof.
  destruct (fetch_recovers_after_retries env_flaky 29 0 2 empty_world
              (reading_payload 29)) as (Hdata & Hsleeps & _).
  - reflexivity.
  - reflexivity.
  - unfold MAX_RETRIES. lia.
  - intros i Hi. destruct i as [|[|i]]; [reflexivity | reflexivity | lia].
  - reflexivity.
  - reflexivity.
  - split; [exact Hdata | exact Hsleeps].
Defined.

(** X2.  A fetch that meets nothing but retryable outcomes, timeouts
    included and in any mixture with 500 and 503, sleeps 1, 2, 4, 8 and 16
    seconds, sends six requests and returns no data. *)
Theorem fetch_gives_up_after_retryable_outcomes :
  forall (E : environment) (facility : Z) (w : world),
    api_key_missing E = false ->
    (forall t, interrupt E t = false) ->
    (forall t, retryable (http E t facility) = true) ->
    fst (fetch_parking_data E facility 0 w) = Ok None
    /\ sleeps (events_of (fetch_parking_data E facility 0) w)
       = map inject_Z [1; 2; 4; 8; 16]%Z
    /\ requests (events_of (fetch_parking_data E facility 0) w)
       = repeat facility 6
    /\ db (snd (fetch_parking_data E facility 0 w)) = db w.
Proof.
  intros E facility w Hkey Hquiet Hretry.
  destruct (fetch_after_retries E Hkey Hquiet MAX_RETRIES facility 0 w)
    as (delta & Hrun & Hlen & Hsl & Hreq); [reflexivity | auto |].
  destruct (fetch_exhausted E Hkey Hquiet facility (0 + MAX_RETRIES)
              (after w delta)) as (exhausted & Hend); [auto | reflexivity |].
  rewrite Hend, after_after in Hrun.
  rewrite (events_of_delta _ w
             (delta ++ [Get facility; Log ERROR exhausted]) (db w))
    by now rewrite Hrun.
  rewrite Hrun, sleeps_app, requests_app, Hsl, Hreq.
  repeat split; reflexivity.
Qed.

Lemma fetch_gives_up_after_retryable_outcomes_witness :
  fst (fetch_parking_data env_timeouts 30 0 empty_world) = Ok None
  /\ sleeps (events_of (fetch_parking_data env_timeouts 30 0) empty_world)
     = map inject_Z [1; 2; 4; 8; 16]%Z.
Proof.
  destruct (fetch_gives_up_after_retryable_outcomes env_timeouts 30 empty_world)
    as (Hnone & Hsleeps & _); try reflexivity.
  split; assumption.
Defined.

(** X3.  A transport error, a body that is not JSON under status 200, and
    any status other than 200, 500 and 503 make the fetch return no data at
    once, whatever the retry count: one request, no sleep, the table left
    alone. *)
Theorem fetch_gives_up_at_once :
  forall (E : environment) (facility : Z) (retry_count : nat) (w : world),
    api_key_missing E = false ->
    interrupt E (tick w) = false ->
    gives_up (http E (tick w) facility) = true ->
    fst (fetch_parking_data E facility retry_count w) = Ok None
    /\ sleeps (events_of (fetch_parking_data E facility retry_count) w) = []
    /\ requests (events_of (fetch_parking_data E facility retry_count) w)
       = [facility]
    /\ db (snd (fetch_parking_data E facility retry_count w)) = db w.
Proof.
  intros E facility retry_count w Hkey Hquiet Hgive.
  assert (Hrun : exists line,
             fetch_parking_data E facility retry_count w
             = (Ok None, after w [Get facility; Log ERROR line])).
  { rewrite fetch_unfold by assumption. cbv zeta. rewrite Hquiet.
    destruct (http E (tick w) facility) as [status_code content| |];
      unfold gives_up in Hgive; try discriminate.
    - destruct (status_code =? 200)%Z.
      + destruct content; [|discriminate]. world_norm. eexists. reflexivity.
      + apply negb_true_iff in Hgive. rewrite Hgive.
        destruct (status_in status_code FATAL_STATUS_CODES);
          world_norm; eexists; reflexivity.
    - world_norm. eexists. reflexivity. }
  destruct Hrun as (line & Hrun).
  rewrite (events_of_delta _ w [Get facility; Log ERROR line] (db w))
    by now rewrite Hrun.
  rewrite Hrun. repeat split; reflexivity.
Qed.

Lemma fetch_gives_up_at_once_witness :
  fst (fetch_parking_data env_not_found 31 3 empty_world) = Ok None
  /\ requests (events_of (fetch_parking_data env_not_found 31 3) empty_world)
     = [31%Z].
Proof.
  destruct (fetch_gives_up_at_once env_not_found 31 3 empty_world)
    as (Hnone & _ & Hreq & _); try reflexivity.
  split; assumption.
Defined.

(** X4.  Whatever the fetcher returns as data is a body the API sent for
    that facility under status 200 while the call ran, and it has no
    [ErrorDetails]: the fetcher never makes a payload up and never passes
    an application-level error on. *)
Theorem fetch_returns_only_api_payloads :
  forall (E : environment) (facility : Z) (retry_count : nat) (w w' : world)
         (data : pyval),
    fetch_parking_data E facility retry_count w = (Ok (Some data), w') ->
    exists t,
      tick w <= t /\ t < tick w'
      /\ http E t facility = Response 200 (Json data)
      /\ py_in "ErrorDetails" data = Ok false.
Proof.
  intros E facility retry_count w w' data.
  now apply (fetch_payload_bounded E (MAX_RETRIES - retry_count)).
Qed.

Lemma fetch_returns_only_api_payloads_witness :
  exists t,
    t < 2 /\ http env_healthy t 32 = Response 200 (Json (reading_payload 32)).
Proof.
  destruct (fetch_returns_only_api_payloads env_healthy 32 0 empty_world
              (snd (fetch_parking_data env_healthy 32 0 empty_world))
              (reading_payload 32))
    as (t & _ & Hlt & Hhttp & _).
  - vm_compute. reflexivity.
  - exists t. split; [exact Hlt | exact Hhttp].
Defined.

(** X5.  The three exceptions the fetcher has a clause for, [Timeout],
    the other request exceptions and [JSONDecodeError], never leave it, at
    any depth of retry.  Whatever else it raises, apart from an operator
    interrupt, it raises while handling a body received under status 200
    (lines 98-106): the request that was answered so is the last event of
    the call, with no log line and no sleep after it. *)
Theorem fetch_raises_only_at_a_200_body :
  forall (E : environment) (facility : Z) (retry_count : nat) (w w' : world)
         (e : exn),
    fetch_parking_data E facility retry_count w = (Raise e, w') ->
    (e <> Timeout /\ e <> RequestException /\ e <> JSONDecodeError)
    /\ (e = KeyboardInterrupt
        \/ exists prefix content,
             trace w' = prefix ++ [Get facility]
             /\ tick w <= List.length prefix
             /\ http E (List.length prefix) facility = Response 200 content).
Proof.
  intros E facility retry_count w w' e Hraise. split.
  - exact (fetch_catches E facility retry_count w e w' Hraise).
  - exact (fetch_raise_site_bounded E (MAX_RETRIES - retry_count) facility
             retry_count w e w' (le_n _) Hraise).
Qed.

Lemma fetch_raises_only_at_a_200_body_witness :
  exists prefix content,
    trace (snd (fetch_parking_data env_api_error_text 29 0 empty_world))
    = prefix ++ [Get 29]
    /\ tick empty_world <= List.length prefix
    /\ http env_api_error_text (List.length prefix) 29 = Response 200 content.
Proof.
  destruct (fetch_raises_only_at_a_200_body env_api_error_text 29 0 empty_world
              (snd (fetch_parking_data env_api_error_text 29 0 empty_world))
              AttributeError) as [_ [Hinterrupt | Hsite]].
  - vm_compute. reflexivity.
  - discriminate Hinterrupt.
  - exact Hsite.
Defined.

(** X6.  When nobody interrupts and every body under status 200 is a JSON
    object whose [ErrorDetails], if any, is an object, a fetch always
    returns: data or no data, never an exception. *)
Theorem fetch_always_returns_on_well_shaped_bodies :
  forall (E : environment) (facility : Z) (retry_count : nat) (w : world),
    (forall t, interrupt E t = false) ->
    (forall t, well_shaped (http E t facility) = true) ->
    exists r, fst (fetch_parking_data E facility retry_count w) = Ok r.
Proof.
  intros E facility retry_count w Hquiet Hshape.
  now apply (fetch_returns_bounded E (MAX_RETRIES - retry_count)).
Qed.

Lemma fetch_always_returns_on_well_shaped_bodies_witness :
  exists r, fst (fetch_parking_data env_api_error 29 0 empty_world) = Ok r.
Proof.
  apply (fetch_always_returns_on_well_shaped_bodies env_api_error 29 0
           empty_world); intros t; reflexivity.
Defined.

(** X7.  Whatever the API answers and whether or not someone interrupts,
    the sleeps of a fetch started at retry count [n] are the first [j] of
    [2 ** n], [2 ** (n + 1)], ... for some [j] up to [MAX_RETRIES - n], with
    [j] or [j + 1] requests.  A fetch started at retry count 0 therefore
    never sleeps more than 31 seconds in all. *)
Theorem fetch_sleeps_follow_the_schedule :
  forall (E : environment) (facility : Z) (retry_count : nat) (w : world),
    (exists j,
        j <= MAX_RETRIES - retry_count
        /\ sleeps (events_of (fetch_parking_data E facility retry_count) w)
           = map backoff_seconds (seq retry_count j)
        /\ (requests (events_of (fetch_parking_data E facility retry_count) w)
            = repeat facility j
            \/ requests (events_of (fetch_parking_data E facility retry_count) w)
               = repeat facility (S j)))
    /\ (total_seconds (sleeps (events_of (fetch_parking_data E facility 0) w))
        <= 31)%Q.
Proof.
  intros E facility retry_count w. split.
  - destruct (fetch_sleeps_prefix_bounded E (MAX_RETRIES - retry_count)
                facility retry_count w (le_n _))
      as (delta & j & Hrun & Hj & Hsl & Hreq).
    rewrite (events_of_delta _ w delta (db w)) by exact Hrun.
    exists j. auto.
  - destruct (fetch_sleeps_prefix_bounded E (MAX_RETRIES - 0) facility 0 w
                (le_n _))
      as (delta & j & Hrun & Hj & Hsl & _).
    rewrite (events_of_delta _ w delta (db w)) by exact Hrun.
    rewrite Hsl. unfold MAX_RETRIES in Hj.
    do 6 (destruct j as [|j]; [apply Qle_bool_imp_le; reflexivity|]). lia.
Qed.

(** ** The persister, whatever the payload *)

Lemma skipn_tick w l : skipn (tick w) (trace w ++ l) = l.
Proof.
  unfold tick. now rewrite skipn_app, skipn_all, Nat.sub_diag.
Qed.

Lemma extract_fields_raises data e :
  extract_fields data = Raise e -> e = AttributeError.
Proof.
  unfold extract_fields, and_then.
  repeat (case_split; try discriminate); intros [= <-];
    python_raises; congruence.
Qed.

Lemma bind_row_raises fields timestamp raw e :
  bind_row fields timestamp raw = Raise e ->
  e = OverflowError \/ e = UnsupportedType.
Proof.
  destruct fields as [[[[a b] c] d] f]. unfold bind_row, and_then.
  repeat (case_split; try discriminate); intros [= <-];
    match goal with
    | Hb : bind_parameter _ = Raise _ |- _ => exact (bind_parameter_raises _ _ Hb)
    end.
Qed.

(** X8.  A save opens exactly one connection, first of all.  It calls
    [conn.close()], last of all, exactly when the five values could be
    read from the payload: the reads of lines 155-163 come before the
    [try], so a payload that is not an object, or whose [occupancy] is not
    one, raises [AttributeError] before [conn.close()] is reached, with the
    table as it was. *)
Theorem save_closes_unless_extraction_fails :
  forall (E : environment) (data : pyval) (w : world),
    let events := events_of (save_parking_data E data) w in
    connections events = 1
    /\ hd_error events = Some Connect
    /\ match extract_fields data with
       | Ok _ => closings events = 1 /\ last events Connect = Close
       | Raise e =>
           e = AttributeError
           /\ events = [Connect]
           /\ fst (save_parking_data E data w) = Raise AttributeError
           /\ db (snd (save_parking_data E data w)) = db w
       end.
Proof.
  intros E data w events. unfold events, events_of. rewrite save_unfold.
  destruct (extract_fields data) as [[[[[a b] c] d] f]|e] eqn:Hfields.
  - destruct (bind_row _ _ _) as [r|e].
    + destruct (storage_fault E (tick w + 1));
        [|destruct (_ || _)%bool]; cbn [snd after trace];
        rewrite skipn_tick; repeat split; reflexivity.
    + cbn [snd after trace]. rewrite skipn_tick. repeat split; reflexivity.
  - apply extract_fields_raises in Hfields as ->.
    cbn [snd fst after trace db]. rewrite skipn_tick.
    repeat split; reflexivity.
Qed.

(** X9.  A constraint failure never leaves the persister, and a save
    that raises has written nothing.  What it raises is what one of its
    three steps raised: the reads of the payload (lines 155-163), the
    binding of the seven parameters, or the storage under the [INSERT]. *)
Theorem save_raises_without_writing :
  forall (E : environment) (data : pyval) (w : world) (e : exn),
    fst (save_parking_data E data w) = Raise e ->
    e <> IntegrityError
    /\ db (snd (save_parking_data E data w)) = db w
    /\ (extract_fields data = Raise e
        \/ (exists fields,
               extract_fields data = Ok fields
               /\ bind_row fields (clock E (tick w + 1)) (json_dumps E data)
                  = Raise e)
        \/ (e = OperationalError /\ storage_fault E (tick w + 1) = true)).
Proof.
  intros E data w e. rewrite save_unfold.
  destruct (extract_fields data) as [[[[[a b] c] d] f]|e'] eqn:Hfields.
  - destruct (bind_row _ _ _) as [r|e'] eqn:Hrow.
    + destruct (storage_fault E (tick w + 1)) eqn:Hfault;
        [|destruct (_ || _)%bool]; cbn [fst snd after db];
        try discriminate.
      intros [= <-]. split; [discriminate|]. split; [reflexivity|].
      right. right. now split.
    + cbn [fst snd after db]. intros [= <-].
      split; [destruct (bind_row_raises _ _ _ _ Hrow); subst; discriminate|].
      split; [reflexivity|]. right. left. eauto.
  - cbn [fst snd after db]. intros [= <-].
    split; [apply extract_fields_raises in Hfields; subst; discriminate|].
    split; [reflexivity|]. now left.
Qed.

Lemma save_raises_without_writing_witness :
  db (snd (save_parking_data env_healthy (payload_null_occupancy 29) empty_world))
  = [].
Proof.
  apply (save_raises_without_writing env_healthy (payload_null_occupancy 29)
           empty_world AttributeError).
  vm_compute. reflexivity.
Defined.

(** X10.  A save leaves the table as it was or appends one row to it: the
    row the payload maps to, stamped with the clock read after the
    connection was opened, with no [NOT NULL] column empty and a pair the
    table did not hold; the save then returns normally.  Nothing is ever
    updated or removed. *)
Theorem save_appends_at_most_one_row :
  forall (E : environment) (data : pyval) (w : world),
    db (snd (save_parking_data E data w)) = db w
    \/ exists r,
         db (snd (save_parking_data E data w)) = db w ++ [stored E r]
         /\ row_of E data (clock E (tick w + 1)) = Ok r
         /\ not_null_violated r = false
         /\ existsb (same_key (stored E r)) (db w) = false
         /\ fst (save_parking_data E data w) = Ok tt.
Proof.
  intros E data w. rewrite save_unfold. unfold row_of, and_then.
  destruct (extract_fields data) as [[[[[a b] c] d] f]|e]; [|now left].
  destruct (bind_row _ _ _) as [r|e]; [|now left].
  destruct (storage_fault E (tick w + 1)); [now left|].
  destruct (_ || _)%bool eqn:Hskip; [now left|].
  apply orb_false_iff in Hskip as [Hnull Hfresh].
  right. exists r. repeat split; assumption.
Qed.

(** X11.  A payload object that lacks [MessageDate] is given the empty
    string for it, not NULL.  So the [NOT NULL] constraint does not reject
    it, and all such payloads of one facility carry the same pair: once the
    table holds the row of one of them, saving another writes nothing. *)
Theorem readings_without_message_date_share_a_pair :
  forall (E : environment) (items1 items2 : list (string * pyval)),
    assoc "MessageDate" items1 = None ->
    assoc "MessageDate" items2 = None ->
    assoc "facility_id" items1 = assoc "facility_id" items2 ->
    same_pair E (PDict items1) (PDict items2)
    /\ (forall timestamp r,
           row_of E (PDict items1) timestamp = Ok r ->
           message_date r = SqlText "")
    /\ (forall w timestamp r,
           row_of E (PDict items1) timestamp = Ok r ->
           In (stored E r) (db w) ->
           db (snd (save_parking_data E (PDict items2) w)) = db w).
Proof.
  intros E items1 items2 H1 H2 Hid.
  assert (Hrow : forall items timestamp r,
             assoc "MessageDate" items = None ->
             row_of E (PDict items) timestamp = Ok r ->
             message_date r = SqlText ""
             /\ bind_parameter
                  (match assoc "facility_id" items with
                   | Some v => v
                   | None => PNone
                   end) = Ok (facility_id r)).
  { intros items timestamp r Hnone.
    unfold row_of, extract_fields, bind_row, and_then, py_get.
    rewrite Hnone.
    destruct (assoc "facility_id" items);
      repeat (case_split; try discriminate); intros [= <-];
      cbn [message_date facility_id];
      match goal with
      | Hb : bind_parameter (PStr "") = Ok _ |- _ => injection Hb as <-
      end; now split. }
  assert (Hpair : same_pair E (PDict items1) (PDict items2)).
  { intros t1 t2 r1 r2 Hr1 Hr2.
    destruct (Hrow _ _ _ H1 Hr1) as [Hd1 Hf1].
    destruct (Hrow _ _ _ H2 Hr2) as [Hd2 Hf2].
    rewrite Hid, Hf2 in Hf1. injection Hf1 as Hf.
    unfold same_key, stored. cbn [facility_id message_date].
    now rewrite Hd1, Hd2, Hf, !sql_eqb_refl. }
  split; [exact Hpair|]. split.
  - intros timestamp r Hr. now destruct (Hrow _ _ _ H1 Hr).
  - intros w timestamp r Hr Hin. rewrite save_unfold.
    destruct (extract_fields (PDict items2)) as [[[[[a b] c] d] f]|e] eqn:Hfields;
      [|reflexivity].
    destruct (bind_row _ _ _) as [r2|e] eqn:Hrow2; [|reflexivity].
    destruct (storage_fault E (tick w + 1)); [reflexivity|].
    assert (Hr2 : row_of E (PDict items2) (clock E (tick w + 1)) = Ok r2)
      by (unfold row_of, and_then; now rewrite Hfields).
    pose proof (Hpair _ _ _ _ Hr Hr2) as Hsame. rewrite same_key_sym in Hsame.
    replace (existsb (same_key (stored E r2)) (db w)) with true
      by (symmetry; apply existsb_exists; eauto).
    now rewrite orb_true_r.
Qed.

Lemma readings_without_message_date_share_a_pair_witness :
  same_pair env_healthy (payload_undated 29 40) (payload_undated 29 41).
Proof.
  apply (readings_without_message_date_share_a_pair env_healthy
           [("facility_id", PInt 29); ("occupancy", PDict [("total", PInt 40)])]
           [("facility_id", PInt 29); ("occupancy", PDict [("total", PInt 41)])]);
    reflexivity.
Defined.

(** ** The poll cycle, however it ends *)

Section CycleAnyOutcome.

Variable E : environment.

Lemma save_effects data w :
  exists d added,
    snd (save_parking_data E data w)
    = mkWorld (trace w ++ Connect :: d) (db w ++ added)
    /\ requests d = [] /\ connections d = 0 /\ List.length added <= 1.
Proof.
  rewrite save_unfold.
  repeat (case_split; cbn [snd]); unfold after; eexists;
    first [ exists (@nil row); rewrite app_nil_r; split; [reflexivity|]
          | eexists; split; [reflexivity|] ];
    repeat split; simpl; lia.
Qed.

Lemma save_raises data w e :
  fst (save_parking_data E data w) = Raise e ->
  In e [AttributeError; OverflowError; UnsupportedType; OperationalError].
Proof.
  rewrite save_unfold.
  destruct (extract_fields data) as [[[[[a b] c] d] f]|e'] eqn:Hfields.
  - destruct (bind_row _ _ _) as [r|e'] eqn:Hrow.
    + destruct (storage_fault E (tick w + 1));
        [|destruct (_ || _)%bool]; cbn [fst]; try discriminate.
      intros [= <-]. simpl. auto.
    + cbn [fst]. intros [= <-].
      destruct (bind_row_raises _ _ _ _ Hrow); subst; simpl; auto.
  - cbn [fst]. intros [= <-].
    apply extract_fields_raises in Hfields. subst. simpl. auto.
Qed.

(** One facility: what it adds to the trace and to the table, and what
    it can raise. *)
Lemma poll_facility_effects facility success_count w :
  exists delta added,
    snd (poll_facility E facility success_count w)
    = mkWorld (trace w ++ delta) (db w ++ added)
    /\ Forall (eq facility) (requests delta)
    /\ List.length (requests delta) <= S MAX_RETRIES
    /\ connections delta <= 1
    /\ List.length added <= connections delta.
Proof.
  unfold poll_facility. unfold_monad.
  destruct (fetch_effects E facility 0 w) as (delta & Hw1 & Hev & Hreq & _).
  apply fetch_event_segment in Hev as (Hall & _ & Hconn).
  rewrite Nat.sub_0_r in Hreq.
  unfold connections, requests in *.
  destruct (fetch_parking_data E facility 0 w) as [[[payload|]|e] w1];
    simpl in Hw1; subst w1.
  - destruct (truthy payload).
    + destruct (save_effects payload (after w delta))
        as (d & added & Hsave & Hr & Hc & Hadd).
      unfold connections, requests in *.
      destruct (save_parking_data E payload (after w delta)) as [[[]|e] w2];
        simpl in Hsave; subst w2;
        repeat (case_split; cbn [snd]);
        eexists; exists added;
        (split; [unfold emit; cbn [trace db]; rewrite <- ?app_assoc; reflexivity|]);
        rewrite ?flat_map_app; cbn [flat_map app]; rewrite ?flat_map_app, ?Hr;
        cbn [flat_map app]; rewrite ?app_nil_r, ?length_app, ?Hc; cbn [List.length];
        repeat split; auto; lia.
    + repeat (case_split; cbn [snd]);
        eexists; exists (@nil row); rewrite (app_nil_r (db w));
        (split; [unfold emit, after; cbn [trace db]; rewrite <- ?app_assoc; reflexivity|]);
        rewrite ?flat_map_app; cbn [flat_map app];
        rewrite ?app_nil_r, ?length_app; cbn [List.length];
        repeat split; auto; lia.
  - repeat (case_split; cbn [snd]);
      eexists; exists (@nil row); rewrite (app_nil_r (db w));
      (split; [unfold emit, after; cbn [trace db]; rewrite <- ?app_assoc; reflexivity|]);
      rewrite ?flat_map_app; cbn [flat_map app];
      rewrite ?app_nil_r, ?length_app; cbn [List.length];
      repeat split; auto; lia.
  - cbn [snd]. exists delta, (@nil row). rewrite app_nil_r.
    split; [reflexivity|]. repeat split; auto; simpl; lia.
Qed.

Lemma poll_facility_raises facility success_count w e :
  fst (poll_facility E facility success_count w) = Raise e ->
  In e [KeyboardInterrupt; TypeError; AttributeError; OverflowError;
        UnsupportedType; OperationalError].
Proof.
  unfold poll_facility. unfold_monad.
  pose proof (fetch_raises_bounded E (MAX_RETRIES - 0) facility 0 w) as Hfetch.
  destruct (fetch_parking_data E facility 0 w) as [[[payload|]|e'] w1].
  - destruct (truthy payload).
    + pose proof (save_raises payload w1) as Hsave.
      destruct (save_parking_data E payload w1) as [[[]|e'] w2].
      * repeat (case_split; cbn [fst]); try discriminate.
        intros [= <-]. simpl. auto.
      * cbn [fst]. intros [= <-].
        specialize (Hsave _ eq_refl). simpl in *. intuition.
    + repeat (case_split; cbn [fst]); try discriminate.
      intros [= <-]. simpl. auto.
  - repeat (case_split; cbn [fst]); try discriminate.
    intros [= <-]. simpl. auto.
  - cbn [fst]. intros [= <-].
    destruct (Hfetch e' w1 (le_n _) eq_refl) as [-> | [-> | ->]]; simpl; auto.
Qed.

Lemma poll_facilities_effects todo success_count w :
  exists delta added,
    snd (poll_facilities E todo success_count w)
    = mkWorld (trace w ++ delta) (db w ++ added)
    /\ Forall (fun facility => In facility todo) (requests delta)
    /\ List.length (requests delta) <= S MAX_RETRIES * List.length todo
    /\ connections delta <= List.length todo
    /\ List.length added <= connections delta.
Proof.
  revert success_count w.
  induction todo as [|facility todo IH]; intros success_count w.
  - exists [], []. simpl. rewrite !app_nil_r. destruct w. repeat split; auto.
  - cbn [poll_facilities]. unfold bind.
    destruct (poll_facility_effects facility success_count w)
      as (d1 & a1 & Hw1 & Hall1 & Hreq1 & Hconn1 & Hadd1).
    destruct (poll_facility E facility success_count w) as [[c1|e] w1];
      cbn [snd] in *; subst w1.
    + destruct (IH c1 (mkWorld (trace w ++ d1) (db w ++ a1)))
        as (d2 & a2 & -> & Hall2 & Hreq2 & Hconn2 & Hadd2).
      exists (d1 ++ d2), (a1 ++ a2). cbn [trace db].
      rewrite <- !app_assoc, requests_app, connections_app, !length_app.
      cbn [List.length]. repeat split; try lia.
      apply Forall_app. split.
      * eapply Forall_impl; [|exact Hall1]. intros f <-. now left.
      * eapply Forall_impl; [|exact Hall2]. intros f Hin. now right.
    + exists d1, a1. cbn [List.length]. repeat split; try lia.
      eapply Forall_impl; [|exact Hall1]. intros f <-. now left.
Qed.

Lemma poll_facilities_raises todo success_count w e :
  fst (poll_facilities E todo success_count w) = Raise e ->
  In e [KeyboardInterrupt; TypeError; AttributeError; OverflowError;
        UnsupportedType; OperationalError].
Proof.
  revert success_count w.
  induction todo as [|facility todo IH]; intros success_count w;
    [discriminate|].
  cbn [poll_facilities]. unfold bind.
  pose proof (poll_facility_raises facility success_count w) as Hone.
  destruct (poll_facility E facility success_count w) as [[c1|e1] w1].
  - apply IH.
  - cbn [fst] in *. intros [= <-]. now apply Hone.
Qed.

Lemma poll_all_facilities_raises w e :
  fst (poll_all_facilities E w) = Raise e ->
  In e [KeyboardInterrupt; TypeError; AttributeError; OverflowError;
        UnsupportedType; OperationalError].
Proof.
  unfold poll_all_facilities. unfold_monad.
  pose proof (poll_facilities_raises (FACILITIES E) 0
                (emit (Log INFO (MsgCycleStart (List.length (FACILITIES E)))) w))
    as Hloop.
  destruct (poll_facilities E (FACILITIES E) 0 _) as [[k|e'] w1];
    cbn [fst] in *; [discriminate|].
  intros [= <-]. now apply Hloop.
Qed.

Lemma poll_all_facilities_effects w :
  exists delta added,
    snd (poll_all_facilities E w) = mkWorld (trace w ++ delta) (db w ++ added)
    /\ Forall (fun facility => In facility (FACILITIES E)) (requests delta)
    /\ List.length (requests delta) <= S MAX_RETRIES * List.length (FACILITIES E)
    /\ connections delta <= List.length (FACILITIES E)
    /\ List.length added <= connections delta.
Proof.
  unfold poll_all_facilities. unfold_monad.
  destruct (poll_facilities_effects (FACILITIES E) 0
              (emit (Log INFO (MsgCycleStart (List.length (FACILITIES E)))) w))
    as (d & added & Hloop & Hall & Hreq & Hconn & Hadd).
  destruct (poll_facilities E (FACILITIES E) 0 _) as [[k|e'] w1];
    cbn [snd] in *; subst w1; unfold emit; cbn [trace db];
    rewrite <- ?app_assoc; eexists; exists added;
    (split; [reflexivity|]); cbn [app];
    change (Log INFO (MsgCycleStart (List.length (FACILITIES E))) :: ?l)
      with ([Log INFO (MsgCycleStart (List.length (FACILITIES E)))] ++ l);
    rewrite ?requests_app, ?connections_app; cbn [requests connections flat_map app List.length];
    rewrite ?app_nil_r; repeat split; auto.
  all: try (apply Forall_app; split; [assumption | constructor]).
  all: rewrite ?requests_app, ?length_app; simpl; lia.
Qed.

(** When no fetch yields a payload and nobody interrupts, the loop goes
    through the whole list, opens no connection and leaves the counter
    as it was. *)
Lemma poll_facilities_without_payload todo success_count w :
  (forall t, interrupt E t = false) ->
  (forall facility w0,
      exists d,
        fetch_parking_data E facility 0 w0 = (Ok None, after w0 d)
        /\ connections d = 0
        /\ (api_key_missing E = true -> requests d = [])) ->
  exists delta,
    poll_facilities E todo success_count w = (Ok success_count, after w delta)
    /\ connections delta = 0
    /\ (api_key_missing E = true -> requests delta = []).
Proof.
  intros Hquiet Hfetch. revert w.
  induction todo as [|facility todo IH]; intros w.
  - exists []. unfold after. rewrite app_nil_r. destruct w.
    repeat split; reflexivity.
  - cbn [poll_facilities]. unfold bind, poll_facility. unfold_monad.
    destruct (Hfetch facility w) as (d & -> & Hconn & Hreq).
    cbv beta iota.
    destruct (negb (facility =? last (FACILITIES E) 0)%Z).
    + rewrite Hquiet, after_emit.
      destruct (IH (after w (d ++ [Sleep RATE_LIMIT_DELAY])))
        as (rest & -> & Hcr & Hrr).
      exists ((d ++ [Sleep RATE_LIMIT_DELAY]) ++ rest). rewrite after_after.
      rewrite !connections_app, !requests_app, Hconn, Hcr.
      split; [reflexivity|]. split; [reflexivity|]. intros Hkey.
      now rewrite (Hreq Hkey), (Hrr Hkey).
    + destruct (IH (after w d)) as (rest & -> & Hcr & Hrr).
      exists (d ++ rest). rewrite after_after.
      rewrite !connections_app, !requests_app, Hconn, Hcr.
      split; [reflexivity|]. split; [reflexivity|]. intros Hkey.
    now rewrite (Hreq Hkey), (Hrr Hkey).
Qed.

Lemma fetch_without_payload_bounded n facility retry_count w :
  (forall t, interrupt E t = false) ->
  (forall t, no_payload (http E t facility) = true) ->
  MAX_RETRIES - retry_count <= n ->
  fst (fetch_parking_data E facility retry_count w) = Ok None.
Proof.
  intros Hquiet Hnone. revert retry_count w.
  induction n as [|n IH]; intros retry_count w Hn;
    (destruct (api_key_missing E) eqn:Hkey;
     [ now rewrite fetch_no_key by assumption
     | rewrite fetch_unfold by assumption; cbv zeta; rewrite Hquiet;
       pose proof (Hnone (tick w)) as Hhere;
       destruct (http E (tick w) facility) as [status_code [|data]| |];
       unfold no_payload in Hhere;
       try (apply negb_true_iff in Hhere; rewrite Hhere);
       unfold backoff; unfold_monad; rewrite ?Hquiet;
       repeat (case_split; cbn [fst]); try reflexivity;
       try match goal with
           | Hi : interrupt _ _ = true |- _ =>
               rewrite Hquiet in Hi; discriminate
           end;
       bool_to_prop; try lia ]).
  all: apply IH; lia.
Qed.

Lemma poll_all_facilities_without_payload w :
  (forall t, interrupt E t = false) ->
  (api_key_missing E = true
   \/ forall t facility, no_payload (http E t facility) = true) ->
  exists delta,
    poll_all_facilities E w = (Ok false, after w delta)
    /\ connections delta = 0
    /\ (api_key_missing E = true -> requests delta = []).
Proof.
  intros Hquiet Hnone.
  assert (Hfetch : forall facility w0,
             exists d,
               fetch_parking_data E facility 0 w0 = (Ok None, after w0 d)
               /\ connections d = 0
               /\ (api_key_missing E = true -> requests d = [])).
  { intros facility w0.
    destruct (api_key_missing E) eqn:Hkey.
    - rewrite fetch_no_key by assumption.
      exists [Log ERROR MsgApiKeyMissing]. repeat split; reflexivity.
    - destruct Hnone as [Hnone | Hnone]; [discriminate|].
      destruct (fetch_effects E facility 0 w0) as (d & Hw1 & Hev & _).
      apply fetch_event_segment in Hev as (_ & _ & Hconn).
      pose proof (fetch_without_payload_bounded (MAX_RETRIES - 0) facility 0 w0
                    Hquiet (fun t => Hnone t facility) (le_n _)) as Hres.
      destruct (fetch_parking_data E facility 0 w0) as [r w1].
      cbn [fst snd] in *. subst. exists d. repeat split; [assumption|].
      discriminate. }
  unfold poll_all_facilities. unfold_monad.
  destruct (poll_facilities_without_payload (FACILITIES E) 0
              (emit (Log INFO (MsgCycleStart (List.length (FACILITIES E)))) w)
              Hquiet Hfetch) as (delta & -> & Hconn & Hreq).
  cbv beta iota. rewrite after_emit, emit_after, after_after.
  eexists. split; [reflexivity|].
  rewrite !connections_app, !requests_app, Hconn.
  split; [reflexivity|]. intros Hkey. now rewrite (Hreq Hkey).
Qed.

(** The loop, facility by facility: what was handled, and what each
    facility added. *)
Lemma poll_facilities_parts todo success_count w :
  exists done rest parts,
    todo = done ++ rest
    /\ Forall2 facility_budget done parts
    /\ snd (poll_facilities E todo success_count w)
       = mkWorld (trace w ++ List.concat (map fst parts))
                 (db w ++ List.concat (map snd parts))
    /\ (forall c, fst (poll_facilities E todo success_count w) = Ok c ->
        rest = []).
Proof.
  revert success_count w.
  induction todo as [|facility todo IH]; intros success_count w.
  - exists [], [], []. simpl. rewrite !app_nil_r. destruct w.
    repeat split; auto.
  - cbn [poll_facilities]. unfold bind.
    destruct (poll_facility_effects facility success_count w)
      as (d1 & a1 & Hw1 & Hall1 & Hreq1 & Hconn1 & Hadd1).
    assert (Hpart : facility_budget facility (d1, a1)).
    { unfold facility_budget. cbn [fst snd].
      replace (MAX_RETRIES + 1) with (S MAX_RETRIES) by reflexivity. auto. }
    destruct (poll_facility E facility success_count w) as [[c1|e] w1];
      cbn [snd] in Hw1; subst w1.
    + destruct (IH c1 (mkWorld (trace w ++ d1) (db w ++ a1)))
        as (done & rest & parts & -> & Hparts & Hrun & Hend).
      exists (facility :: done), rest, ((d1, a1) :: parts).
      rewrite Hrun. cbn [trace db map List.concat fst snd].
      rewrite <- !app_assoc. repeat split; auto; try (now constructor).
    + exists [facility], todo, [(d1, a1)]. cbn [map List.concat fst snd].
      rewrite !app_nil_r. repeat split; auto;
        try discriminate; try (repeat constructor; apply Hpart).
Qed.

Lemma poll_all_facilities_parts w :
  exists done rest parts tail,
    FACILITIES E = done ++ rest
    /\ Forall2 facility_budget done parts
    /\ snd (poll_all_facilities E w)
       = mkWorld
           (trace w
            ++ Log INFO (MsgCycleStart (List.length (FACILITIES E)))
               :: List.concat (map fst parts) ++ tail)
           (db w ++ List.concat (map snd parts))
    /\ requests tail = [] /\ connections tail = 0
    /\ (forall success,
           fst (poll_all_facilities E w) = Ok success -> rest = []).
Proof.
  unfold poll_all_facilities. unfold_monad.
  destruct (poll_facilities_parts (FACILITIES E) 0
              (emit (Log INFO (MsgCycleStart (List.length (FACILITIES E)))) w))
    as (done & rest & parts & Hlist & Hparts & Hrun & Hend).
  destruct (poll_facilities E (FACILITIES E) 0 _) as [[k|e] w1];
    cbn [fst snd] in *; subst w1; exists done, rest, parts.
  - exists [Log INFO (MsgCycleComplete k (List.length (FACILITIES E)))].
    unfold emit. cbn [trace db]. rewrite <- !app_assoc.
    repeat split; auto. intros success _. now apply (Hend k).
  - exists []. unfold emit. cbn [trace db]. rewrite <- !app_assoc, app_nil_r.
    repeat split; auto. discriminate.
Qed.

End CycleAnyOutcome.

(** X12.  However a cycle ends, it handles the facilities in the order
    of the list, as far as it gets: after the start line its events are
    one part per facility handled, then at most the summary line.  Each
    part holds requests for its own facility only, at most
    [MAX_RETRIES + 1] of them, and at most one connection, and adds at
    most one row per connection to the table, which keeps the rows it had.
    A cycle that returns has handled the whole list.  In all, that is at
    most [MAX_RETRIES + 1] requests and one connection per configured
    facility. *)
Theorem cycle_stays_within_its_budget :
  forall (E : environment) (w : world),
    let events := events_of (poll_all_facilities E) w in
    let w' := snd (poll_all_facilities E w) in
    (exists done rest parts tail,
        FACILITIES E = done ++ rest
        /\ Forall2 facility_budget done parts
        /\ events
           = Log INFO (MsgCycleStart (List.length (FACILITIES E)))
             :: List.concat (map fst parts) ++ tail
        /\ requests tail = [] /\ connections tail = 0
        /\ db w' = db w ++ List.concat (map snd parts)
        /\ (forall success,
               fst (poll_all_facilities E w) = Ok success -> rest = []))
    /\ Forall (fun facility => In facility (FACILITIES E)) (requests events)
    /\ List.length (requests events)
       <= (MAX_RETRIES + 1) * List.length (FACILITIES E)
    /\ connections events <= List.length (FACILITIES E)
    /\ exists added,
         db w' = db w ++ added
         /\ List.length added <= connections events.
Proof.
  intros E w events w'. split.
  - destruct (poll_all_facilities_parts E w)
      as (done & rest & parts & tail & Hlist & Hparts & Hrun & Hreq & Hconn
          & Hend).
    exists done, rest, parts, tail. unfold events, w'.
    rewrite (events_of_delta _ w _ _ Hrun), Hrun.
    repeat split; auto.
  - destruct (poll_all_facilities_effects E w)
      as (delta & added & Hrun & Hall & Hreq & Hconn & Hadd).
    unfold events, w'.
    rewrite (events_of_delta _ w delta (db w ++ added)) by exact Hrun.
    rewrite Hrun. replace (MAX_RETRIES + 1) with (S MAX_RETRIES) by reflexivity.
    repeat split; try assumption. exists added. now split.
Qed.

(** X13.  Without an API key a cycle sends no request and opens no
    connection; it still goes through the whole list and returns false,
    and the table is left as it was. *)
Theorem cycle_without_key_sends_nothing :
  forall (E : environment) (w : world),
    api_key_missing E = true ->
    (forall t, interrupt E t = false) ->
    fst (poll_all_facilities E w) = Ok false
    /\ requests (events_of (poll_all_facilities E) w) = []
    /\ connections (events_of (poll_all_facilities E) w) = 0
    /\ db (snd (poll_all_facilities E w)) = db w.
Proof.
  intros E w Hkey Hquiet.
  destruct (poll_all_facilities_without_payload E w Hquiet (or_introl Hkey))
    as (delta & Hrun & Hconn & Hreq).
  rewrite (events_of_delta _ w delta (db w)) by now rewrite Hrun.
  rewrite Hrun. repeat split; auto.
Qed.

Lemma cycle_without_key_sends_nothing_witness :
  fst (poll_all_facilities env_no_key empty_world) = Ok false
  /\ requests (events_of (poll_all_facilities env_no_key) empty_world) = [].
Proof.
  destruct (cycle_without_key_sends_nothing env_no_key empty_world)
    as (Hres & Hreq & _); try reflexivity.
  split; assumption.
Defined.

(** X14.  When nobody interrupts and no request is answered by a parsed
    body under status 200, whatever else happens to each request (timeout,
    transport error, any other status, a body that is not JSON), the cycle
    returns false without opening a connection, and the table is left as
    it was. *)
Theorem cycle_without_payload_returns_false :
  forall (E : environment) (w : world),
    (forall t, interrupt E t = false) ->
    (forall t facility, no_payload (http E t facility) = true) ->
    fst (poll_all_facilities E w) = Ok false
    /\ cycle_fails E w
    /\ connections (events_of (poll_all_facilities E) w) = 0
    /\ db (snd (poll_all_facilities E w)) = db w.
Proof.
  intros E w Hquiet Hnone.
  destruct (poll_all_facilities_without_payload E w Hquiet (or_intror Hnone))
    as (delta & Hrun & Hconn & _).
  rewrite (events_of_delta _ w delta (db w)) by now rewrite Hrun.
  unfold cycle_fails. rewrite Hrun. repeat split; auto.
Qed.

Lemma cycle_without_payload_returns_false_witness :
  fst (poll_all_facilities env_timeouts empty_world) = Ok false
  /\ db (snd (poll_all_facilities env_timeouts empty_world)) = [].
Proof.
  destruct (cycle_without_payload_returns_false env_timeouts empty_world)
    as (Hres & _ & _ & Hdb); try reflexivity.
  split; assumption.
Defined.

(** X15.  A cycle never raises [SystemExit], and never one of the
    exceptions the fetcher or the persister has a clause for: [Timeout],
    the other request exceptions, [JSONDecodeError] and
    [IntegrityError].  So the supervisor meets [SystemExit] only from its
    own calls of [sys.exit], and a network or constraint failure never
    counts as a crashed cycle. *)
Theorem cycle_never_raises_what_its_parts_handle :
  forall (E : environment) (w : world) (e : exn),
    fst (poll_all_facilities E w) = Raise e ->
    (forall code, e <> SystemExit code)
    /\ e <> Timeout /\ e <> RequestException /\ e <> JSONDecodeError
    /\ e <> IntegrityError.
Proof.
  intros E w e Hraise.
  apply poll_all_facilities_raises in Hraise. simpl in Hraise.
  destruct Hraise as [<- | [<- | [<- | [<- | [<- | [<- | []]]]]]];
    repeat split; try discriminate; intros code; discriminate.
Qed.

Lemma cycle_never_raises_what_its_parts_handle_witness :
  OperationalError <> IntegrityError.
Proof.
  apply (cycle_never_raises_what_its_parts_handle env_disk_failure empty_world
           OperationalError).
  vm_compute. reflexivity.
Defined.

(** ** The process, whatever the world does *)

Section SupervisorAnyOutcome.

Variable E : environment.

(** How a turn can end. *)
Lemma main_iteration_outcomes consecutive_failures w :
  match fst (main_iteration E consecutive_failures w) with
  | Ok n => n < MAX_CONSECUTIVE_FAILURES
  | Raise (SystemExit code) => code = 0%Z \/ code = 1%Z
  | Raise e =>
      e = KeyboardInterrupt
      /\ exists crash prefix,
           is_Exception crash = true
           /\ trace (snd (main_iteration E consecutive_failures w))
              = prefix ++ [Log ERROR (MsgUnexpectedError crash);
                           Sleep POLL_INTERVAL_SECONDS]
  end.
Proof.
  rewrite main_iteration_unfold. cbv zeta.
  pose proof (poll_all_facilities_raises E w) as Hraise.
  destruct (poll_all_facilities E w) as [[[|]|e] w1]; cbn [fst] in Hraise.
  - destruct (interrupt E (tick w1 + 1)); cbn [fst]; [now left|].
    unfold MAX_CONSECUTIVE_FAILURES. lia.
  - destruct (MAX_CONSECUTIVE_FAILURES <=? consecutive_failures + 1) eqn:Hmax;
      cbn [fst]; [now right|].
    destruct (interrupt E (tick w1 + 2)); cbn [fst]; [now left|].
    now apply Nat.leb_gt in Hmax.
  - specialize (Hraise e eq_refl). simpl in Hraise.
    destruct Hraise as [<- | [<- | [<- | [<- | [<- | [<- | []]]]]]];
      try (cbn [fst]; now left);
      (destruct (MAX_CONSECUTIVE_FAILURES <=? consecutive_failures + 1) eqn:Hmax;
       cbn [fst]; [now right|];
       destruct (interrupt E (tick w1 + 1)); cbn [fst snd];
       [ split; [reflexivity|]; eexists; exists (trace w1);
         split; [|reflexivity]; reflexivity
       | now apply Nat.leb_gt in Hmax ]).
Qed.

Lemma main_loop_outcomes turns consecutive_failures w :
  consecutive_failures < MAX_CONSECUTIVE_FAILURES ->
  match fst (main_loop E turns consecutive_failures w) with
  | Exited status => status = 0%Z \/ status = 1%Z
  | Traceback e =>
      e = KeyboardInterrupt
      /\ exists crash prefix,
           is_Exception crash = true
           /\ trace (snd (main_loop E turns consecutive_failures w))
              = prefix ++ [Log ERROR (MsgUnexpectedError crash);
                           Sleep POLL_INTERVAL_SECONDS]
  | Running n => n < MAX_CONSECUTIVE_FAILURES
  end.
Proof.
  revert consecutive_failures w.
  induction turns as [|turns IH]; intros c w Hc; [exact Hc|].
  cbn [main_loop].
  pose proof (main_iteration_outcomes c w) as Hturn.
  destruct (main_iteration E c w) as [[n|e] w1]; cbn [fst snd] in Hturn.
  - now apply IH.
  - destruct e; cbn [fst snd]; try exact Hturn;
      destruct Hturn as [[=] _].
Qed.

(** The table only grows, turn after turn. *)
Lemma main_iteration_db consecutive_failures w :
  exists added,
    db (snd (main_iteration E consecutive_failures w)) = db w ++ added.
Proof.
  rewrite main_iteration_unfold. cbv zeta.
  destruct (poll_all_facilities_effects E w) as (delta & added & Hrun & _).
  exists added.
  destruct (poll_all_facilities E w) as [r w1]. cbn [snd] in Hrun. subst w1.
  repeat (case_split; cbn [snd after db]); reflexivity.
Qed.

Lemma main_loop_db turns consecutive_failures w :
  exists added,
    db (snd (main_loop E turns consecutive_failures w)) = db w ++ added.
Proof.
  revert consecutive_failures w.
  induction turns as [|turns IH]; intros c w.
  - exists []. now rewrite app_nil_r.
  - cbn [main_loop].
    destruct (main_iteration_db c w) as (a1 & Ha1).
    destruct (main_iteration E c w) as [[n|e] w1]; cbn [snd] in Ha1.
    + destruct (IH n w1) as (a2 & ->). rewrite Ha1, <- app_assoc. eauto.
    + destruct e; cbn [snd]; eauto.
Qed.

Lemma main_startup w :
  (log INFO MsgStarting ;;
   log INFO (MsgMonitoring (FACILITIES E)) ;;
   log INFO MsgPollInterval ;;
   init_database)%py w
  = (Ok tt,
     after w [Log INFO MsgStarting; Log INFO (MsgMonitoring (FACILITIES E));
              Log INFO MsgPollInterval; Connect; Close;
              Log INFO MsgDatabaseInitialized]).
Proof.
  unfold init_database. unfold_monad. world_norm. reflexivity.
Qed.

Lemma main_unfold turns w :
  main E turns w
  = if api_key_missing E then
      (Exited 1, after w [Log ERROR MsgApiKeyMissingExit])
    else
      main_loop E turns 0
        (after w [Log INFO MsgStarting; Log INFO (MsgMonitoring (FACILITIES E));
                  Log INFO MsgPollInterval; Connect; Close;
                  Log INFO MsgDatabaseInitialized]).
Proof.
  unfold main. destruct (api_key_missing E); [reflexivity|].
  now rewrite main_startup.
Qed.

End SupervisorAnyOutcome.

(** X16.  However long the process is observed and whatever the world
    does, it stands in one of four ways: exited with status 0, exited with
    status 1, dead of an uncaught [KeyboardInterrupt], or still in its loop
    with fewer than [MAX_CONSECUTIVE_FAILURES] failures counted.  No other
    exit status and no other uncaught exception is possible (logging and
    the set-up of the database are taken not to fail), and the table has
    kept every row it had. *)
Theorem main_ends_in_one_of_four_ways :
  forall (E : environment) (turns : nat) (w : world),
    match fst (main E turns w) with
    | Exited status => status = 0%Z \/ status = 1%Z
    | Traceback e => e = KeyboardInterrupt
    | Running n => n < MAX_CONSECUTIVE_FAILURES
    end
    /\ exists added, db (snd (main E turns w)) = db w ++ added.
Proof.
  intros E turns w. rewrite main_unfold.
  destruct (api_key_missing E).
  - split; [now right|]. exists []. now rewrite app_nil_r.
  - split.
    + pose proof (main_loop_outcomes E turns 0
                    (after w [Log INFO MsgStarting;
                              Log INFO (MsgMonitoring (FACILITIES E));
                              Log INFO MsgPollInterval; Connect; Close;
                              Log INFO MsgDatabaseInitialized])) as Hloop.
      destruct (fst (main_loop E turns 0 _)); try (apply Hloop; unfold MAX_CONSECUTIVE_FAILURES; lia).
    + apply (main_loop_db E turns 0
               (after w [Log INFO MsgStarting;
                         Log INFO (MsgMonitoring (FACILITIES E));
                         Log INFO MsgPollInterval; Connect; Close;
                         Log INFO MsgDatabaseInitialized])).
Qed.

(** X17.  Where an interrupt of a blocking call is caught.  An interrupt
    inside the [try], during the cycle or during the sleep that follows a
    cycle which returned (line 241), ends the process with status 0.  An
    interrupt of the sleep the [except Exception] handler takes after a
    cycle that raised (line 256) is caught by nothing: the process dies of
    [KeyboardInterrupt], its last events being the handler's log line and
    that sleep. *)
Theorem interrupt_exits_in_the_try_and_kills_in_the_handler :
  forall (E : environment) (turns consecutive_failures : nat) (w : world),
    consecutive_failures + 1 < MAX_CONSECUTIVE_FAILURES ->
    let cycle := poll_all_facilities E w in
    (fst cycle = Raise KeyboardInterrupt ->
     main_loop E (S turns) consecutive_failures w
     = (Exited 0, after (snd cycle) [Log INFO MsgInterrupt]))
    /\ (fst cycle = Ok true ->
        interrupt E (tick (snd cycle) + 1) = true ->
        fst (main_loop E (S turns) consecutive_failures w) = Exited 0)
    /\ (fst cycle = Ok false ->
        interrupt E (tick (snd cycle) + 2) = true ->
        fst (main_loop E (S turns) consecutive_failures w) = Exited 0)
    /\ (forall e,
           fst cycle = Raise e ->
           is_Exception e = true ->
           interrupt E (tick (snd cycle) + 1) = true ->
           main_loop E (S turns) consecutive_failures w
           = (Traceback KeyboardInterrupt,
              after (snd cycle)
                [Log ERROR (MsgUnexpectedError e);
                 Sleep POLL_INTERVAL_SECONDS])).
Proof.
  intros E turns c w Hbelow cycle. unfold cycle.
  cbn [main_loop]. rewrite main_iteration_unfold. cbv zeta.
  replace (MAX_CONSECUTIVE_FAILURES <=? c + 1) with false
    by (symmetry; apply Nat.leb_gt; exact Hbelow).
  destruct (poll_all_facilities E w) as [[[|]|e'] w1]; cbn [fst snd];
    repeat split; try discriminate.
  - intros _ ->. reflexivity.
  - intros _ ->. reflexivity.
  - intros [= ->]. reflexivity.
  - intros e [= ->] Hexc ->.
    destruct e; try discriminate Hexc; reflexivity.
Qed.

Lemma interrupt_exits_in_the_try_and_kills_in_the_handler_witness :
  fst (main_loop env_crash_then_interrupt 1 0
         (after empty_world (startup env_crash_then_interrupt)))
  = Traceback KeyboardInterrupt
  /\ fst (main_loop env_down_then_interrupt 1 0
            (after empty_world (startup env_down_then_interrupt)))
     = Exited 0.
Proof.
  split.
  - destruct (interrupt_exits_in_the_try_and_kills_in_the_handler
                env_crash_then_interrupt 0 0
                (after empty_world (startup env_crash_then_interrupt)))
      as (_ & _ & _ & Hkill); [unfold MAX_CONSECUTIVE_FAILURES; lia|].
    rewrite (Hkill AttributeError); reflexivity.
  - destruct (interrupt_exits_in_the_try_and_kills_in_the_handler
                env_down_then_interrupt 0 0
                (after empty_world (startup env_down_then_interrupt)))
      as (_ & _ & Hexit & _); [unfold MAX_CONSECUTIVE_FAILURES; lia|].
    apply Hexit; vm_compute; reflexivity.
Defined.

(** ** The process against a given world *)

Section SupervisorRuns.

Variable E : environment.

Lemma main_loop_from_startup turns w :
  api_key_missing E = false ->
  main E turns w = main_loop E turns 0 (after w (startup E)).
Proof. intros Hkey. now rewrite main_unfold, Hkey. Qed.

Lemma poll_facility_healthy facility success_count w :
  api_key_missing E = false ->
  (forall t, interrupt E t = false) ->
  (forall t, storage_fault E t = false) ->
  (forall t, healthy_answer E (http E t facility)) ->
  fst (poll_facility E facility success_count w) = Ok (success_count + 1).
Proof.
  intros Hkey Hquiet Hstorage Hhealthy.
  unfold poll_facility. unfold_monad.
  rewrite fetch_unfold by assumption. cbv zeta. rewrite Hquiet.
  destruct (Hhealthy (tick w)) as (data & -> & -> & Htruthy & Hreading).
  change (200 =? 200)%Z with true. cbv beta iota. rewrite Htruthy.
  match goal with
  | |- context [save_parking_data E data ?w1] =>
      pose proof (save_cases E data w1 (Hstorage _)) as Hsave;
      destruct (Hreading (clock E (tick w1 + 1))) as (r & Hrow);
      rewrite Hrow in Hsave; destruct Hsave as [Hsave _];
      destruct (save_parking_data E data w1) as [[[]|e] w2];
      cbn [fst] in Hsave; [|discriminate]
  end.
  destruct (negb _); rewrite ?Hquiet; reflexivity.
Qed.

Lemma poll_facilities_healthy todo success_count w :
  api_key_missing E = false ->
  (forall t, interrupt E t = false) ->
  (forall t, storage_fault E t = false) ->
  (forall t facility, In facility todo -> healthy_answer E (http E t facility)) ->
  fst (poll_facilities E todo success_count w)
  = Ok (success_count + List.length todo).
Proof.
  intros Hkey Hquiet Hstorage. revert success_count w.
  induction todo as [|facility todo IH]; intros success_count w Hhealthy.
  - simpl. now rewrite Nat.add_0_r.
  - cbn [poll_facilities]. unfold bind.
    pose proof (poll_facility_healthy facility success_count w Hkey Hquiet
                  Hstorage (fun t => Hhealthy t facility (or_introl eq_refl)))
      as Hone.
    destruct (poll_facility E facility success_count w) as [r w1].
    cbn [fst] in Hone. subst r.
    rewrite IH by (intros t f Hin; apply Hhealthy; now right).
    cbn [List.length]. f_equal. lia.
Qed.

Lemma poll_all_facilities_healthy w :
  api_key_missing E = false ->
  (forall t, interrupt E t = false) ->
  (forall t, storage_fault E t = false) ->
  FACILITIES E <> [] ->
  (forall t facility,
      In facility (FACILITIES E) -> healthy_answer E (http E t facility)) ->
  fst (poll_all_facilities E w) = Ok true.
Proof.
  intros Hkey Hquiet Hstorage Hsome Hhealthy.
  unfold poll_all_facilities. unfold_monad.
  pose proof (poll_facilities_healthy (FACILITIES E) 0
                (emit (Log INFO (MsgCycleStart (List.length (FACILITIES E)))) w)
                Hkey Hquiet Hstorage Hhealthy) as Hloop.
  destruct (poll_facilities E (FACILITIES E) 0 _) as [r w1].
  cbn [fst] in Hloop. subst r. cbn [fst]. f_equal.
  destruct (FACILITIES E); [contradiction | reflexivity].
Qed.

Lemma main_iteration_without_payload consecutive_failures w :
  (forall t, interrupt E t = false) ->
  (forall t facility, no_payload (http E t facility) = true) ->
  exists delta,
    main_iteration E consecutive_failures w
    = (if MAX_CONSECUTIVE_FAILURES <=? consecutive_failures + 1
       then Raise (SystemExit 1) else Ok (consecutive_failures + 1),
       after w delta)
    /\ connections delta = 0.
Proof.
  intros Hquiet Hnone. rewrite main_iteration_unfold. cbv zeta.
  destruct (poll_all_facilities_without_payload E w Hquiet (or_intror Hnone))
    as (delta & -> & Hconn & _).
  destruct (MAX_CONSECUTIVE_FAILURES <=? consecutive_failures + 1);
    rewrite ?Hquiet, after_after; eexists; (split; [reflexivity|]);
    rewrite connections_app, Hconn; reflexivity.
Qed.

Lemma poll_facilities_interrupted facility rest success_count w :
  api_key_missing E = false ->
  interrupt E (tick w) = true ->
  poll_facilities E (facility :: rest) success_count w
  = (Raise KeyboardInterrupt, after w [Get facility]).
Proof.
  intros Hkey Hint. cbn [poll_facilities]. unfold bind, poll_facility.
  unfold_monad. rewrite fetch_unfold by assumption. cbv zeta.
  now rewrite Hint.
Qed.

End SupervisorRuns.

(** X18.  An interrupt during the first request of the process, sent
    right after the start-up lines, the set-up of the database and the
    line that opens the cycle, ends the process with status 0: the trace
    stops at that request and the line that reports the interrupt, and
    the table is left as it was. *)
Theorem main_exits_cleanly_when_first_request_is_interrupted :
  forall (E : environment) (turns : nat) (w : world) (facility : Z)
         (rest : list Z),
    api_key_missing E = false ->
    FACILITIES E = facility :: rest ->
    interrupt E (tick w + 7) = true ->
    main E (S turns) w
    = (Exited 0,
       after w (startup E
                ++ [Log INFO (MsgCycleStart (List.length (FACILITIES E)));
                    Get facility; Log INFO MsgInterrupt])).
Proof.
  intros E turns w facility rest Hkey Hlist Hint.
  rewrite main_loop_from_startup by assumption.
  apply main_loop_exit. rewrite main_iteration_unfold. cbv zeta.
  assert (Hcycle : poll_all_facilities E (after w (startup E))
                   = (Raise KeyboardInterrupt,
                      after w (startup E
                               ++ [Log INFO (MsgCycleStart
                                               (List.length (FACILITIES E)));
                                   Get facility]))).
  { unfold poll_all_facilities. unfold_monad. rewrite Hlist.
    rewrite poll_facilities_interrupted; [|assumption|].
    - cbv beta iota. rewrite after_emit, after_after, <- app_assoc. reflexivity.
    - rewrite tick_emit, tick_after.
      replace (tick w + List.length (startup E) + 1) with (tick w + 7)
        by (unfold startup; simpl; lia).
      exact Hint. }
  rewrite Hcycle, after_after, <- app_assoc. reflexivity.
Qed.

Lemma main_exits_cleanly_when_first_request_is_interrupted_witness :
  fst (main env_interrupting 1 empty_world) = Exited 0.
Proof.
  rewrite (main_exits_cleanly_when_first_request_is_interrupted
             env_interrupting 0 empty_world 29 [30; 31; 32]%Z);
    reflexivity.
Defined.

(** X19.  While the key is set, nobody interrupts, the storage works and
    every configured facility is answered by a body the pipeline accepts,
    every cycle succeeds and the process never leaves its loop: however
    long it is observed it is running with no failure counted, whether
    the rows are new or skipped as duplicates. *)
Theorem main_keeps_running_while_cycles_succeed :
  forall (E : environment) (turns : nat) (w : world),
    api_key_missing E = false ->
    (forall t, interrupt E t = false) ->
    (forall t, storage_fault E t = false) ->
    FACILITIES E <> [] ->
    (forall t facility,
        In facility (FACILITIES E) -> healthy_answer E (http E t facility)) ->
    fst (poll_all_facilities E w) = Ok true
    /\ fst (main E turns w) = Running 0.
Proof.
  intros E turns w Hkey Hquiet Hstorage Hsome Hhealthy.
  split; [now apply poll_all_facilities_healthy|].
  rewrite main_loop_from_startup by assumption.
  generalize (after w (startup E)). clear w.
  induction turns as [|turns IH]; intros w; [reflexivity|].
  cbn [main_loop].
  pose proof (main_iteration_success E 0 w Hquiet
                (poll_all_facilities_healthy E w Hkey Hquiet Hstorage Hsome
                   Hhealthy)) as Hturn.
  destruct (main_iteration E 0 w) as [r w1]. cbn [fst] in Hturn. subst r.
  apply IH.
Qed.

Lemma main_keeps_running_while_cycles_succeed_witness :
  fst (main env_healthy 5 empty_world) = Running 0.
Proof.
  apply (main_keeps_running_while_cycles_succeed env_healthy 5 empty_world).
  - reflexivity.
  - reflexivity.
  - reflexivity.
  - discriminate.
  - intros t facility [<- | [<- | [<- | [<- | []]]]];
      (eexists; split; [reflexivity|]; repeat split; try reflexivity;
       intros timestamp; eexists; reflexivity).
Defined.

(** X20.  While the key is set, nobody interrupts and no request is
    answered by a parsed body under status 200, the process counts one
    failure after the first cycle, two after the second, and exits with
    status 1 in the third turn, however long it is observed.  The only
    connection it ever opened is the one that set the database up, and
    the table is left as it was. *)
Theorem main_exits_in_the_third_turn_without_payload :
  forall (E : environment) (w : world),
    api_key_missing E = false ->
    (forall t, interrupt E t = false) ->
    (forall t facility, no_payload (http E t facility) = true) ->
    fst (main E 1 w) = Running 1
    /\ fst (main E 2 w) = Running 2
    /\ forall turns,
         fst (main E (3 + turns) w) = Exited 1
         /\ connections (skipn (tick w) (trace (snd (main E (3 + turns) w)))) = 1
         /\ db (snd (main E (3 + turns) w)) = db w.
Proof.
  intros E w Hkey Hquiet Hnone.
  rewrite !main_loop_from_startup by assumption.
  destruct (main_iteration_without_payload E 0 (after w (startup E))
              Hquiet Hnone) as (d1 & H1 & Hc1).
  rewrite after_after in H1.
  destruct (main_iteration_without_payload E 1 (after w (startup E ++ d1))
              Hquiet Hnone) as (d2 & H2 & Hc2).
  rewrite after_after in H2.
  destruct (main_iteration_without_payload E 2
              (after w ((startup E ++ d1) ++ d2)) Hquiet Hnone)
    as (d3 & H3 & Hc3).
  rewrite after_after in H3.
  change (MAX_CONSECUTIVE_FAILURES <=? 0 + 1) with false in H1.
  change (MAX_CONSECUTIVE_FAILURES <=? 1 + 1) with false in H2.
  change (MAX_CONSECUTIVE_FAILURES <=? 2 + 1) with true in H3.
  cbv iota in H1, H2, H3.
  repeat split.
  - cbn [main_loop]. now rewrite H1.
  - cbn [main_loop]. rewrite H1. change (0 + 1) with 1. now rewrite H2.
  - change (3 + turns) with (S (S (S turns))). rewrite main_loop_from_startup by assumption.
    cbn [main_loop]. rewrite H1. change (0 + 1) with 1. rewrite H2.
    change (1 + 1) with 2. now rewrite H3.
  - change (3 + turns) with (S (S (S turns))). rewrite main_loop_from_startup by assumption.
    cbn [main_loop]. rewrite H1. change (0 + 1) with 1. rewrite H2.
    change (1 + 1) with 2. rewrite H3. cbn [snd after trace].
    rewrite skipn_tick, !connections_app, Hc1, Hc2, Hc3. reflexivity.
  - change (3 + turns) with (S (S (S turns))). rewrite main_loop_from_startup by assumption.
    cbn [main_loop]. rewrite H1. change (0 + 1) with 1. rewrite H2.
    change (1 + 1) with 2. now rewrite H3.
Qed.

Lemma main_exits_in_the_third_turn_without_payload_witness :
  fst (main env_timeouts 1 empty_world) = Running 1
  /\ fst (main env_timeouts (3 + 4) empty_world) = Exited 1.
Proof.
  destruct (main_exits_in_the_third_turn_without_payload env_timeouts
              empty_world) as (Hone & _ & Hthree); try reflexivity.
  split; [exact Hone | apply Hthree].
Defined.

(** ** The dashboard's time axis *)

Lemma clock_field_cases (n : nat) (z : Z) :
  (0 <= z < Z.of_nat n)%Z -> In z (map Z.of_nat (seq 0 n)).
Proof.
  intros Hz. replace z with (Z.of_nat (Z.to_nat z)) by lia.
  apply in_map, in_seq. lia.
Qed.

Lemma half_hour_cases (minute : Z) :
  (0 <= minute < 60)%Z ->
  ((minute <? 30)%Z = true /\ (minute / 30 = 0)%Z)
  \/ ((minute <? 30)%Z = false /\ (minute / 30 = 1)%Z).
Proof.
  intros Hm. destruct (Z.ltb_spec minute 30).
  - left. split; [reflexivity|]. apply Z.div_small. lia.
  - right. split; [reflexivity|]. symmetry.
    apply (Z.div_unique minute 30 1 (minute - 30)); lia.
Qed.

Ltac each_hour Hhour :=
  apply (clock_field_cases 24) in Hhour; simpl in Hhour;
  repeat (destruct Hhour as [<- | Hhour]); try contradiction.

(** X21.  Every key a reading is averaged under falls on a tick of the
    chart's time axis and inside its range: the hours 0 to 23 with hourly
    granularity, the half hours 0.0, 0.5, ..., 23.5 otherwise. *)
Theorem time_bin_lies_on_the_axis :
  forall (granularity : string) (hour minute : Z),
    (0 <= hour < 24)%Z ->
    (0 <= minute < 60)%Z ->
    (exists k : Z,
        (0 <= k)%Z
        /\ (time_bin granularity hour minute
            == inject_Z k * dtick granularity)%Q)
    /\ (fst X_RANGE <= time_bin granularity hour minute)%Q
    /\ (time_bin granularity hour minute <= snd X_RANGE)%Q.
Proof.
  intros granularity hour minute Hhour Hminute.
  unfold time_bin, dtick.
  destruct (granularity =? "Hourly")%string.
  - split; [exists hour; split; [lia | ring]|].
    unfold X_RANGE, Qle. simpl. lia.
  - destruct (half_hour_cases minute Hminute) as [[_ ->] | [_ ->]].
    + split; [exists (2 * hour)%Z; split; [lia|]|].
      * rewrite inject_Z_mult. ring.
      * unfold X_RANGE, Qle. simpl. lia.
    + split; [exists (2 * hour + 1)%Z; split; [lia|]|].
      * rewrite inject_Z_plus, inject_Z_mult. ring.
      * unfold X_RANGE, Qle. simpl. lia.
Qed.

Lemma time_bin_lies_on_the_axis_witness :
  (fst X_RANGE <= time_bin "30 Minutes" 23 59)%Q
  /\ (time_bin "30 Minutes" 23 59 <= snd X_RANGE)%Q.
Proof.
  destruct (time_bin_lies_on_the_axis "30 Minutes" 23 59) as (_ & Hlow & Hhigh);
    [lia | lia |].
  split; assumption.
Defined.

(** X22.  The label of the key of a reading taken at [hour]:[minute] is
    the start of its interval: the hour on two digits, then [:00], or
    [:30] for the second half of the hour with 30-minute granularity.  It
    is five characters long. *)
Theorem format_time_names_the_start_of_the_bin :
  forall (granularity : string) (hour minute : Z),
    (0 <= hour < 24)%Z ->
    (0 <= minute < 60)%Z ->
    format_time granularity (time_bin granularity hour minute)
    = (format_02d hour
       ++ (if (granularity =? "Hourly")%string then ":00"
           else if (minute <? 30)%Z then ":00" else ":30"))%string
    /\ String.length (format_time granularity (time_bin granularity hour minute))
       = 5.
Proof.
  intros granularity hour minute Hhour Hminute.
  unfold time_bin, format_time.
  destruct (granularity =? "Hourly")%string.
  - each_hour Hhour; split; reflexivity.
  - destruct (half_hour_cases minute Hminute) as [[-> ->] | [-> ->]];
      each_hour Hhour; split; reflexivity.
Qed.

Lemma format_time_names_the_start_of_the_bin_witness :
  format_time "30 Minutes" (time_bin "30 Minutes" 7 45) = "07:30".
Proof.
  destruct (format_time_names_the_start_of_the_bin "30 Minutes" 7 45)
    as [Hlabel _]; [lia | lia |].
  exact Hlabel.
Defined.

(** X23.  Under one granularity two readings get the same label exactly
    when they are averaged under the same key: no two rows of the table
    of averages carry the same time. *)
Theorem format_time_tells_bins_apart :
  forall (granularity : string) (hour minute hour' minute' : Z),
    (0 <= hour < 24)%Z -> (0 <= minute < 60)%Z ->
    (0 <= hour' < 24)%Z -> (0 <= minute' < 60)%Z ->
    format_time granularity (time_bin granularity hour minute)
    = format_time granularity (time_bin granularity hour' minute')
    <-> (time_bin granularity hour minute
         == time_bin granularity hour' minute')%Q.
Proof.
  intros granularity hour minute hour' minute' Hhour Hminute Hhour' Hminute'.
  unfold time_bin, format_time.
  destruct (granularity =? "Hourly")%string.
  - each_hour Hhour; each_hour Hhour';
      (split; intros Hsame; vm_compute in Hsame |- *;
       first [reflexivity | discriminate]).
  - destruct (half_hour_cases minute Hminute) as [[_ ->] | [_ ->]];
      destruct (half_hour_cases minute' Hminute') as [[_ ->] | [_ ->]];
      each_hour Hhour; each_hour Hhour';
      (split; intros Hsame; vm_compute in Hsame |- *;
       first [reflexivity | discriminate]).
Qed.

Lemma format_time_tells_bins_apart_witness :
  format_time "30 Minutes" (time_bin "30 Minutes" 7 31)
  = format_time "30 Minutes" (time_bin "30 Minutes" 7 59).
Proof.
  apply (format_time_tells_bins_apart "30 Minutes" 7 31 7 59); try lia.
  reflexivity.
Defined.
